(** * The pairpad client engine: key events, operation messages and the shared document

    This development embeds [client/engine.go]: [handleTermboxEvent],
    [performOperation] and [handleMsg], together with the parts of the [crdt],
    [commons] and editor packages that the engine calls.  Positions travel as
    Go [int]s (here [Z]), text as Go strings (here byte strings, [string]). *)

From Stdlib Require Import ZArith List String Ascii Bool Lia.
From Stdlib Require Import Sorting.Sorted.
Import ListNotations.

Local Open Scope string_scope.
Local Open Scope list_scope.
Local Open Scope Z_scope.

(* ================================================================== *)
(** * Go values *)

(** A Go [rune] is an [int32] code point. *)
Definition rune := Z.

(** Go's [error] values met by the engine. *)
Inductive error : Type :=
| InvalidRangeError
| IndexOutOfRange
| MalformedOperationError
| CorruptStateError
| errorString (s : string)
| NumError (Func Num : string) (Err : error).

Definition byte_of_Z (z : Z) : ascii := ascii_of_N (Z.to_N z).

Definition validRune (r : rune) : bool :=
  (0 <=? r) && (r <=? 0x10FFFF) && negb ((0xD800 <=? r) && (r <=? 0xDFFF)).

(** UTF-8 encoding of a valid code point. *)
Definition encodeRune (r : rune) : string :=
  if r <? 0x80 then
    String (byte_of_Z r) EmptyString
  else if r <? 0x800 then
    String (byte_of_Z (Z.lor 0xC0 (Z.shiftr r 6)))
      (String (byte_of_Z (Z.lor 0x80 (Z.land r 0x3F))) EmptyString)
  else if r <? 0x10000 then
    String (byte_of_Z (Z.lor 0xE0 (Z.shiftr r 12)))
      (String (byte_of_Z (Z.lor 0x80 (Z.land (Z.shiftr r 6) 0x3F)))
         (String (byte_of_Z (Z.lor 0x80 (Z.land r 0x3F))) EmptyString))
  else
    String (byte_of_Z (Z.lor 0xF0 (Z.shiftr r 18)))
      (String (byte_of_Z (Z.lor 0x80 (Z.land (Z.shiftr r 12) 0x3F)))
         (String (byte_of_Z (Z.lor 0x80 (Z.land (Z.shiftr r 6) 0x3F)))
            (String (byte_of_Z (Z.lor 0x80 (Z.land r 0x3F))) EmptyString))).

(** The conversion [string(r)] of a rune: its UTF-8 encoding, or that of
    U+FFFD when [r] is not a valid code point. *)
Definition string_of_rune (r : rune) : string :=
  if validRune r then encodeRune r else encodeRune 0xFFFD.

(** Go's [int] on a 64-bit platform: sums and differences wrap around. *)
Definition wrap64 (z : Z) : Z := (z + 2 ^ 63) mod 2 ^ 64 - 2 ^ 63.

Definition add64 (a b : Z) : Z := wrap64 (a + b).
Definition sub64 (a b : Z) : Z := wrap64 (a - b).

(** [len(s)] of a Go string: its number of bytes. *)
Definition len (s : string) : Z := Z.of_nat (String.length s).

(* ================================================================== *)
(** * The crdt package *)

Module crdt.

(** ** Identifiers *)

(** Modelled from the spec: the Identifier of the Data Model, an ordered
    sequence of (digit, site) pairs.  The [crdt] package is not among the
    sources at hand. *)
Definition Pair : Type := (Z * Z)%type.
Definition Identifier : Type := list Pair.

(** Modelled from the spec: pairs compare by digit, then by site (the
    lower site id sorts first). *)
Definition pair_compare (p q : Pair) : comparison :=
  match fst p ?= fst q with
  | Eq => snd p ?= snd q
  | c => c
  end.

(** Modelled from the spec: identifiers compare lexicographically,
    pair by pair. *)
Fixpoint compare (a b : Identifier) : comparison :=
  match a, b with
  | [], [] => Eq
  | [], _ :: _ => Lt
  | _ :: _, [] => Gt
  | p :: a', q :: b' =>
      match pair_compare p q with
      | Eq => compare a' b'
      | c => c
      end
  end.

(** Modelled from the spec: the total order on identifiers, as a test and
    as propositions. *)
Definition ltb (a b : Identifier) : bool :=
  match compare a b with Lt => true | _ => false end.

Definition lt (a b : Identifier) : Prop := compare a b = Lt.
Definition le (a b : Identifier) : Prop := compare a b <> Gt.

(** Modelled from the spec: an identifier above [l] at a fresh depth: a
    digit strictly above 0 when [l] has no pair there, else the successor
    of [l]'s digit, tagged with the inserting site. *)
Definition above (l : Identifier) (site : Z) : Identifier :=
  match l with
  | [] => [(1, site)]
  | (d, _) :: _ => [(d + 1, site)]
  end.

(** Modelled from the spec: the walk of [between] over the two identifiers.
    At the first depth with an integer gap of at least 2 it picks the digit
    after the lower one and stops; while the pairs agree it keeps the pair
    and walks on; where the pairs differ without such a gap it keeps the
    lower pair and extends to a deeper level.  Where the lower identifier
    has ended it picks the digit below the upper one. *)
Fixpoint walk (low high : Identifier) (site : Z) : Identifier :=
  match low, high with
  | (dl, sl) :: l', (dh, sh) :: h' =>
      if dl + 2 <=? dh then [(dl + 1, site)]
      else match pair_compare (dl, sl) (dh, sh) with
           | Eq => (dl, sl) :: walk l' h' site
           | _ => (dl, sl) :: above l' site
           end
  | [], (dh, _) :: _ => [(dh - 1, site)]
  | _, [] => above low site
  end.

(** Modelled from the spec: [between(lowId, highId, site)], an identifier
    strictly between its bounds; a pair with [lowId >= highId] fails with
    [InvalidRangeError]. *)
Definition between (lowId highId : Identifier) (site : Z) : error + Identifier :=
  if ltb lowId highId then inr (walk lowId highId site)
  else inl InvalidRangeError.

(** ** Character nodes and documents *)

(** Modelled from the spec: the Character Node. *)
Record Character : Type := mkCharacter {
  identifier : Identifier;
  value : string;
  site : Z;
  counter : Z;
  tombstoned : bool
}.

(** Modelled from the spec: the Document, the sequence of its nodes in
    identifier order, sentinels included. *)
Definition Document : Type := list Character.

(** Modelled from the spec: the identifiers of the fixed sentinels.  The
    spec gives them no value; these bound the first level's digits. *)
Definition beginId : Identifier := [(0, 0)].
Definition endId : Identifier := [(65536, 0)].

(** Modelled from the spec: the sentinel nodes, never visible and never
    deleted. *)
Definition beginNode : Character := mkCharacter beginId "" 0 0 false.
Definition endNode : Character := mkCharacter endId "" 0 0 false.

Definition eqb (a b : Identifier) : bool :=
  match compare a b with Eq => true | _ => false end.

Definition isSentinel (c : Character) : bool :=
  eqb (identifier c) beginId || eqb (identifier c) endId.

(** Modelled from the spec: the empty Document (sentinels only). *)
Definition New : Document := [beginNode; endNode].

(** Modelled from the spec: a node is visible when it is neither
    tombstoned nor a sentinel. *)
Definition visible (c : Character) : bool :=
  negb (tombstoned c) && negb (isSentinel c).

(** Modelled from the spec: the values, the identifiers and the number of
    the visible nodes, in document order. *)
Definition visibleValues (d : Document) : list string :=
  map value (filter visible d).

Definition visibleIds (d : Document) : list Identifier :=
  map identifier (filter visible d).

Definition visibleLength (d : Document) : Z :=
  Z.of_nat (List.length (filter visible d)).

(** Modelled from the spec: [Content()], the values of the nodes that are
    not tombstoned, concatenated in identifier order. *)
Definition Content (d : Document) : string :=
  String.concat "" (visibleValues d).

(** Modelled from the spec: the wire-level record the spec prescribes. *)
Inductive Kind : Type := KInsert | KDelete.

Record OperationRecord : Type := mkRecord {
  kind : Kind;
  rec_identifier : Identifier;
  rec_value : string;
  rec_site : Z;
  rec_counter : Z
}.

(** Modelled from the spec: insertion of a node at its identifier-sorted
    position, before the first node with a greater identifier. *)
Fixpoint insertSorted (c : Character) (d : Document) : Document :=
  match d with
  | [] => [c]
  | x :: r =>
      if ltb (identifier c) (identifier x) then c :: x :: r
      else x :: insertSorted c r
  end.

(** Modelled from the spec: the identifiers of the visible nodes just
    before and just after a visible index, the sentinels serving as bounds
    at the edges. *)
Definition lowerBound (d : Document) (i : nat) : Identifier :=
  nth i (beginId :: visibleIds d) beginId.

Definition upperBound (d : Document) (i : nat) : Identifier :=
  nth i (visibleIds d ++ [endId]) endId.

(** Modelled from the spec: [LocalInsert(visibleIndex, value, site)], with
    the site's next counter passed along; it fails with [IndexOutOfRange]
    outside [0 <= visibleIndex <= visibleLength]. *)
Definition LocalInsert (d : Document) (visibleIndex : Z) (v : string)
    (st cnt : Z) : error + (Document * OperationRecord) :=
  if (visibleIndex <? 0) || (visibleLength d <? visibleIndex) then
    inl IndexOutOfRange
  else
    let i := Z.to_nat visibleIndex in
    match between (lowerBound d i) (upperBound d i) st with
    | inl err => inl err
    | inr id =>
        inr (insertSorted (mkCharacter id v st cnt false) d,
             mkRecord KInsert id v st cnt)
    end.

(** Modelled from the spec: the [k]-th visible node (counting from 0)
    marked tombstoned, and never removed. *)
Fixpoint tombstoneNth (k : nat) (d : Document) : Document :=
  match d with
  | [] => []
  | c :: r =>
      if negb (visible c) then c :: tombstoneNth k r
      else match k with
           | O => mkCharacter (identifier c) (value c) (site c) (counter c) true :: r
           | S k' => c :: tombstoneNth k' r
           end
  end.

(** Modelled from the spec: [LocalDelete(visibleIndex)]; it fails with
    [IndexOutOfRange] outside [0 <= visibleIndex < visibleLength]. *)
Definition LocalDelete (d : Document) (visibleIndex : Z)
    : error + (Document * OperationRecord) :=
  if (visibleIndex <? 0) || (visibleLength d <=? visibleIndex) then
    inl IndexOutOfRange
  else
    let i := Z.to_nat visibleIndex in
    inr (tombstoneNth i d,
         mkRecord KDelete (nth i (visibleIds d) []) "" 0 0).

(** Modelled from the spec: [doc.Insert(position, value)] as the engine
    calls it, returning the text and an error.  The engine inserts at
    [Cursor+1] to put a character at the cursor and deletes at [Cursor] to
    remove the character before it, so a position is a visible index plus
    one.  The site is the package's [SiteID]; a failed insert leaves the
    document as it was and returns its text. *)
Definition Insert (d : Document) (SiteID cnt : Z) (position : Z) (v : string)
    : Document * Z * (string * option error) :=
  match LocalInsert d (position - 1) v SiteID cnt with
  | inl err => (d, cnt, (Content d, Some err))
  | inr (d', _) => (d', cnt + 1, (Content d', None))
  end.

(** Modelled from the spec: [doc.Delete(position)] as the engine calls it.
    It returns the text only: an out-of-range position leaves the document
    as it was. *)
Definition Delete (d : Document) (position : Z) : Document * string :=
  match LocalDelete d (position - 1) with
  | inl _ => (d, Content d)
  | inr (d', _) => (d', Content d')
  end.

(** Modelled from the spec: the Document invariant.  The sequence is
    sorted by identifier, and the visible nodes carry distinct identifiers
    strictly between those of the sentinels. *)
Definition WF (d : Document) : Prop :=
  StronglySorted le (map identifier d) /\
  StronglySorted lt (beginId :: visibleIds d ++ [endId]).

End crdt.

(** A list with [v] put at index [i], and with index [i] taken out. *)
Definition insertAt {A : Type} (i : nat) (v : A) (l : list A) : list A :=
  firstn i l ++ v :: skipn i l.

Definition removeAt {A : Type} (i : nat) (l : list A) : list A :=
  firstn i l ++ skipn (S i) l.

(** The number of identifiers of [ids] that are not above [x]. *)
Definition rank (x : crdt.Identifier) (ids : list crdt.Identifier) : nat :=
  List.length (filter (fun y => negb (crdt.ltb x y)) ids).

(* ================================================================== *)
(** * Library functions the engine calls *)

Module strconv.

(** [ErrSyntax] and [ErrRange], the two errors a [*NumError] wraps. *)
Definition ErrSyntax : error := errorString "invalid syntax".
Definition ErrRange : error := errorString "value out of range".

Inductive Failure : Type := Syntax | Range.

(** [syntaxError(fn, str)] and [rangeError(fn, str)] *)
Definition numError (fn str : string) (f : Failure) : error :=
  NumError fn str (match f with Syntax => ErrSyntax | Range => ErrRange end).

Definition isDigit (c : ascii) : bool :=
  let n := Z.of_N (N_of_ascii c) in (48 <=? n) && (n <=? 57).

(** The value of a run of decimal digits read after [acc]; [None] when a
    byte is not a digit. *)
Fixpoint digits (s : string) (acc : Z) : option Z :=
  match s with
  | EmptyString => Some acc
  | String c r =>
      if isDigit c then digits r (acc * 10 + (Z.of_N (N_of_ascii c) - 48))
      else None
  end.

Definition maxUint64 : Z := 2 ^ 64 - 1.

(** The smallest number whose tenfold exceeds [maxUint64]. *)
Definition cutoff : Z := maxUint64 / 10 + 1.

(** The loop of [ParseUint(s, 10, 64)] over the bytes of [s], with [n] the
    [uint64] read so far.  A byte that is not a digit ends it with a syntax
    error and the value 0; a digit at which [n*10] or [n*10+d] overflows ends
    it with a range error and [maxUint64], the bytes after it unread. *)
Fixpoint parseUintLoop (s : string) (n : Z) : Z * option Failure :=
  match s with
  | EmptyString => (n, None)
  | String c r =>
      if isDigit c then
        let d := Z.of_N (N_of_ascii c) - 48 in
        if cutoff <=? n then (maxUint64, Some Range)
        else
          let n10 := n * 10 in
          let n1 := (n10 + d) mod 2 ^ 64 in
          if (n1 <? n10) || (maxUint64 <? n1) then (maxUint64, Some Range)
          else parseUintLoop r n1
      else (0, Some Syntax)
  end.

(** [ParseUint(s, 10, 0)] on a 64-bit platform. *)
Definition ParseUint (s : string) : Z * option Failure :=
  match s with
  | EmptyString => (0, Some Syntax)
  | _ => parseUintLoop s 0
  end.

(** What is left of [s] after a leading sign. *)
Definition unsigned (s : string) : string :=
  match s with
  | String c r => if Ascii.eqb c "-" || Ascii.eqb c "+" then r else s
  | EmptyString => s
  end.

Definition negative (s : string) : bool :=
  match s with
  | String c _ => Ascii.eqb c "-"
  | EmptyString => false
  end.

(** [ParseInt(s, 10, 0)] on a 64-bit platform: the sign picked off, the
    rest read by [ParseUint].  A syntax error yields 0; a range error of
    [ParseUint], or a value beyond the bound of the sign, yields that
    bound. *)
Definition ParseInt (s : string) : Z * option Failure :=
  match s with
  | EmptyString => (0, Some Syntax)
  | _ =>
      let neg := negative s in
      let (un, err) := ParseUint (unsigned s) in
      match err with
      | Some Syntax => (0, Some Syntax)
      | _ =>
          let cut := 2 ^ 63 in
          if negb neg && (cut <=? un) then (cut - 1, Some Range)
          else if neg && (cut <? un) then (- cut, Some Range)
          else (if neg then - un else un, None)
      end
  end.

(** [strconv.Atoi] on a 64-bit platform.  A string of 1 to 18 bytes takes
    the fast path, where a sign and at most 18 digits cannot overflow an
    [int]; every other string goes through [ParseInt], whose error is
    renamed to [Atoi]. *)
Definition Atoi (s : string) : Z * option error :=
  let sLen := len s in
  if (0 <? sLen) && (sLen <? 19) then
    let body := unsigned s in
    if len body <? 1 then (0, Some (numError "Atoi" s Syntax))
    else
      match digits body 0 with
      | None => (0, Some (numError "Atoi" s Syntax))
      | Some n => (if negative s then - n else n, None)
      end
  else
    let (i64, err) := ParseInt s in
    (i64, option_map (numError "Atoi" s) err).

End strconv.

Module strings.

(** [strings.Split(s, sep)] for a one-byte separator. *)
Fixpoint Split (s : string) (sep : ascii) : list string :=
  match s with
  | EmptyString => [EmptyString]
  | String c r =>
      if Ascii.eqb c sep then EmptyString :: Split r sep
      else match Split r sep with
           | [] => [String c EmptyString]
           | h :: t => String c h :: t
           end
  end.

End strings.

(* ================================================================== *)
(** * Messages *)

Module commons.

(** The message kinds [handleMsg] switches on.  Their string values are not
    in the sources at hand; the engine tags its own operation messages
    ["operation"], which [handleMsg] meets in its default branch. *)
Inductive MessageType : Type :=
| DocSyncMessage
| DocReqMessage
| SiteIDMessage
| JoinMessage
| UsersMessage
| OtherMessage (t : string).

(** [commons.Operation], with the fields the engine reads and writes
    ([OpType] is its [Type]). *)
Record Operation : Type := mkOperation {
  OpType : string;
  Position : Z;
  Value : string
}.

(** [commons.Message], with the fields the engine reads and writes
    ([MsgType], [Op] and [Doc] are its [Type], [Operation] and
    [Document]). *)
Record Message : Type := mkMessage {
  MsgType : MessageType;
  ID : string;
  Text : string;
  Username : string;
  Op : Operation;
  Doc : crdt.Document
}.

Definition zeroOperation : Operation := mkOperation "" 0 "".

(** The zero value of a [Message]. *)
Definition zeroMessage : Message :=
  mkMessage (OtherMessage "") "" "" "" zeroOperation [].

End commons.

(* ================================================================== *)
(** * The terminal, the editor and the connection *)

Module termbox.

Inductive EventType : Type := EventKey | EventOther.

(** The keys [handleTermboxEvent] names; every other key is [KeyOther]. *)
Inductive Key : Type :=
| KeyEsc | KeyCtrlC | KeyCtrlS | KeyCtrlL
| KeyArrowLeft | KeyCtrlB | KeyArrowRight | KeyCtrlF
| KeyArrowUp | KeyCtrlP | KeyArrowDown | KeyCtrlN
| KeyHome | KeyEnd
| KeyBackspace | KeyBackspace2 | KeyDelete
| KeyTab | KeyEnter | KeySpace
| KeyOther.

Record Event : Type := mkEvent {
  EvType : EventType;
  Key_ : Key;
  Ch : rune
}.

Definition withCh (ev : Event) (r : rune) : Event :=
  mkEvent (EvType ev) (Key_ ev) r.

End termbox.

(** The fields of the editor [e] that the engine reads and writes. *)
Record Editor : Type := mkEditor {
  Text : string;
  Cursor : Z;
  IsConnected : bool;
  Users : list string
}.

(** The websocket connection: what has been written to it, and whether a
    write fails. *)
Record Conn : Type := mkConn {
  broken : bool;
  wire : list commons.Message
}.

Inductive Level : Type := InfoLevel | ErrorLevel.

(** The state the engine works on: the package-level [doc], [fileName] and
    [e], the [crdt] package's [SiteID] and insert counter, the status and draw
    channels, the connection and the log. *)
Record World : Type := mkWorld {
  doc : crdt.Document;
  SiteID : Z;
  Counter : Z;
  fileName : string;
  e : Editor;
  StatusChan : list string;
  conn : Conn;
  Log : list (Level * string);
  DrawChan : nat
}.

Definition set_doc (d : crdt.Document) (w : World) : World :=
  mkWorld d (SiteID w) (Counter w) (fileName w) (e w) (StatusChan w) (conn w) (Log w) (DrawChan w).
Definition set_SiteID (s : Z) (w : World) : World :=
  mkWorld (doc w) s (Counter w) (fileName w) (e w) (StatusChan w) (conn w) (Log w) (DrawChan w).
Definition set_Counter (c : Z) (w : World) : World :=
  mkWorld (doc w) (SiteID w) c (fileName w) (e w) (StatusChan w) (conn w) (Log w) (DrawChan w).
Definition set_fileName (f : string) (w : World) : World :=
  mkWorld (doc w) (SiteID w) (Counter w) f (e w) (StatusChan w) (conn w) (Log w) (DrawChan w).
Definition set_e (ed : Editor) (w : World) : World :=
  mkWorld (doc w) (SiteID w) (Counter w) (fileName w) ed (StatusChan w) (conn w) (Log w) (DrawChan w).
Definition set_StatusChan (c : list string) (w : World) : World :=
  mkWorld (doc w) (SiteID w) (Counter w) (fileName w) (e w) c (conn w) (Log w) (DrawChan w).
Definition set_conn (c : Conn) (w : World) : World :=
  mkWorld (doc w) (SiteID w) (Counter w) (fileName w) (e w) (StatusChan w) c (Log w) (DrawChan w).
Definition set_Log (l : list (Level * string)) (w : World) : World :=
  mkWorld (doc w) (SiteID w) (Counter w) (fileName w) (e w) (StatusChan w) (conn w) l (DrawChan w).
Definition set_DrawChan (n : nat) (w : World) : World :=
  mkWorld (doc w) (SiteID w) (Counter w) (fileName w) (e w) (StatusChan w) (conn w) (Log w) n.

(** ** A state monad over [World] *)

Definition M (A : Type) : Type := World -> A * World.

Definition ret {A : Type} (a : A) : M A := fun w => (a, w).

Definition bind {A B : Type} (m : M A) (k : A -> M B) : M B :=
  fun w => let (a, w') := m w in k a w'.

Definition gets {A : Type} (f : World -> A) : M A := fun w => (f w, w).

Definition modify (f : World -> World) : M unit := fun w => (tt, f w).

Definition exec {A : Type} (m : M A) (w : World) : World := snd (m w).

Declare Scope engine_scope.
Delimit Scope engine_scope with engine.
Notation "x <- m ;; k" := (bind m (fun x => k))
  (at level 61, m at next level, right associativity) : engine_scope.
Notation "m ;; k" := (bind m (fun _ => k))
  (at level 61, right associativity) : engine_scope.
Local Open Scope engine_scope.

Definition when (b : bool) (m : M unit) : M unit :=
  if b then m else ret tt.

(** ** Logging, status notifications and the connection *)

Definition logger_Infof (s : string) : M unit :=
  modify (fun w => set_Log (Log w ++ [(InfoLevel, s)]) w).

Definition logger_Errorf (s : string) : M unit :=
  modify (fun w => set_Log (Log w ++ [(ErrorLevel, s)]) w).

(** [e.StatusChan <- s] *)
Definition sendStatus (s : string) : M unit :=
  modify (fun w => set_StatusChan (StatusChan w ++ [s]) w).

(** [conn.WriteJSON(msg)] *)
Definition conn_WriteJSON (msg : commons.Message) : M (option error) :=
  fun w =>
    if broken (conn w) then (Some (errorString "write failed"), w)
    else (None, set_conn (mkConn false (wire (conn w) ++ [msg])) w).

(** ** The editor's methods

    The editor package is not among the sources at hand.  [SetText] and
    [SetX] are the setters their names and call sites say, and [SendDraw]
    asks for a redraw.  [MoveCursor] repositions the cursor only; where it
    puts it is left open, as is the length [len(e.Text)] that the End key
    reads. *)

Definition set_Text (t : string) (ed : Editor) : Editor :=
  mkEditor t (Cursor ed) (IsConnected ed) (Users ed).
Definition set_Cursor (c : Z) (ed : Editor) : Editor :=
  mkEditor (Text ed) c (IsConnected ed) (Users ed).
Definition set_IsConnected (b : bool) (ed : Editor) : Editor :=
  mkEditor (Text ed) (Cursor ed) b (Users ed).
Definition set_Users (u : list string) (ed : Editor) : Editor :=
  mkEditor (Text ed) (Cursor ed) (IsConnected ed) u.

Definition e_SetText (t : string) : M unit :=
  modify (fun w => set_e (set_Text t (e w)) w).

Definition e_SetX (x : Z) : M unit :=
  modify (fun w => set_e (set_Cursor x (e w)) w).

Definition e_SendDraw : M unit :=
  modify (fun w => set_DrawChan (S (DrawChan w)) w).

(** ** The document's methods, on the package-level [doc]

    [doc.Insert] runs the [crdt] package's [Insert]; [doc.Delete] is taken
    over any implementation, in the engine below. *)

Definition doc_Insert (position : Z) (v : string) : M (string * option error) :=
  fun w =>
    let '(d, c, r) := crdt.Insert (doc w) (SiteID w) (Counter w) position v in
    (r, set_Counter c (set_doc d w)).

(** [printDoc(doc)] writes the document to the log. *)
Definition printDoc : M unit := logger_Infof "printDoc".

(* ================================================================== *)
(** * The engine *)

Section Engine.

(** [doc.Delete(position)]: the new document and the text it returns.  The
    engine is written over any implementation of the method; [crdt.Delete]
    is the one the replicas below run. *)
Variable Delete : crdt.Document -> Z -> crdt.Document * string.

Definition doc_Delete (position : Z) : M string :=
  fun w =>
    let (d, text) := Delete (doc w) position in
    (text, set_doc d w).

(** Where [e.MoveCursor(x, y)] puts the cursor. *)
Variable moveCursor : Editor -> Z -> Z -> Z.

(** [len(e.Text)] *)
Variable lenText : string -> Z.

(** [crdt.Load(fileName)] and [crdt.Save(fileName, &doc)] *)
Variable Load : string -> crdt.Document * option error.
Variable Save : string -> crdt.Document -> option error.

Definition e_MoveCursor (x y : Z) : M unit :=
  modify (fun w => set_e (set_Cursor (moveCursor (e w) x y) (e w)) w).

Definition OperationInsert : Z := 0.
Definition OperationDelete : Z := 1.

Definition operationMessage (t : string) (position : Z) (v : string)
    : commons.Message :=
  commons.mkMessage (commons.OtherMessage "operation") "" "" ""
    (commons.mkOperation t position v) [].

(** [performOperation] performs a CRDT insert or delete operation on the
    local document and sends a message over the connection. *)
Definition performOperation (opType : Z) (ev : termbox.Event) : M unit :=
  let ch := string_of_rune (termbox.Ch ev) in
  msg <-
    (if opType =? OperationInsert then
       logger_Infof "LOCAL INSERT" ;;
       c <- gets (fun w => Cursor (e w)) ;;
       r <- doc_Insert (add64 c 1) ch ;;
       let (text, err) := r in
       when (match err with Some _ => true | None => false end)
         (e_SetText text ;; logger_Errorf "CRDT error") ;;
       e_SetText text ;;
       e_MoveCursor 1 0 ;;
       c' <- gets (fun w => Cursor (e w)) ;;
       ret (operationMessage "insert" c' ch)
     else if opType =? OperationDelete then
       logger_Infof "LOCAL DELETE" ;;
       c <- gets (fun w => Cursor (e w)) ;;
       when (sub64 c 1 <? 0) (e_SetX 0) ;;
       c0 <- gets (fun w => Cursor (e w)) ;;
       text <- doc_Delete c0 ;;
       e_SetText text ;;
       c1 <- gets (fun w => Cursor (e w)) ;;
       e_MoveCursor (-1) 0 ;;
       ret (operationMessage "delete" c1 "")
     else ret commons.zeroMessage) ;;
  connected <- gets (fun w => IsConnected (e w)) ;;
  if connected then
    err <- conn_WriteJSON msg ;;
    match err with
    | Some _ =>
        modify (fun w => set_e (set_IsConnected false (e w)) w) ;;
        sendStatus "lost connection!"
    | None => ret tt
    end
  else ret tt.

(** Four spaces for the Tab key. *)
Fixpoint repeatM (n : nat) (m : M unit) : M unit :=
  match n with
  | O => ret tt
  | S n' => m ;; repeatM n' m
  end.

(** [handleTermboxEvent] handles key input by updating the local CRDT
    document and sending a message over the connection.  It returns the
    error of an exit, a failed save or a failed load. *)
Definition handleTermboxEvent (ev : termbox.Event) : M (option error) :=
  let carryOn (m : M unit) : M (option error) := m ;; ret None in
  r <-
    match termbox.EvType ev with
    | termbox.EventKey =>
        match termbox.Key_ ev with
        | termbox.KeyEsc | termbox.KeyCtrlC =>
            ret (Some (errorString "pairpad: exiting"))
        | termbox.KeyCtrlS =>
            f <- gets fileName ;;
            when (String.eqb f "") (modify (set_fileName "pairpad-content.txt")) ;;
            f <- gets fileName ;;
            d <- gets doc ;;
            match Save f d with
            | Some err =>
                logger_Errorf ("Failed to save to " ++ f) ;;
                sendStatus ("Failed to save to " ++ f) ;;
                ret (Some err)
            | None =>
                sendStatus ("Saved document to " ++ f) ;;
                ret None
            end
        | termbox.KeyCtrlL =>
            f <- gets fileName ;;
            if negb (String.eqb f "") then
              logger_Infof "LOADING DOCUMENT" ;;
              let (newDoc, err) := Load f in
              match err with
              | Some er =>
                  logger_Errorf ("failed to load file " ++ f) ;;
                  sendStatus ("Failed to load " ++ f) ;;
                  ret (Some er)
              | None =>
                  sendStatus ("Loading " ++ f) ;;
                  modify (set_doc newDoc) ;;
                  e_SetX 0 ;;
                  d <- gets doc ;;
                  e_SetText (crdt.Content d) ;;
                  logger_Infof "SENDING DOCUMENT" ;;
                  d <- gets doc ;;
                  _ <- conn_WriteJSON
                         (commons.mkMessage commons.DocSyncMessage "" "" ""
                            commons.zeroOperation d) ;;
                  ret None
              end
            else
              sendStatus "No file to load!" ;; ret None
        | termbox.KeyArrowLeft | termbox.KeyCtrlB =>
            carryOn (e_MoveCursor (-1) 0)
        | termbox.KeyArrowRight | termbox.KeyCtrlF =>
            carryOn (e_MoveCursor 1 0)
        | termbox.KeyArrowUp | termbox.KeyCtrlP =>
            carryOn (e_MoveCursor 0 (-1))
        | termbox.KeyArrowDown | termbox.KeyCtrlN =>
            carryOn (e_MoveCursor 0 1)
        | termbox.KeyHome =>
            carryOn (e_SetX 0)
        | termbox.KeyEnd =>
            carryOn (t <- gets (fun w => Text (e w)) ;; e_SetX (lenText t))
        | termbox.KeyBackspace | termbox.KeyBackspace2 =>
            carryOn (performOperation OperationDelete ev)
        | termbox.KeyDelete =>
            carryOn (performOperation OperationDelete ev)
        | termbox.KeyTab =>
            carryOn
              (repeatM 4 (performOperation OperationInsert (termbox.withCh ev 32)))
        | termbox.KeyEnter =>
            carryOn (performOperation OperationInsert (termbox.withCh ev 10))
        | termbox.KeySpace =>
            carryOn (performOperation OperationInsert (termbox.withCh ev 32))
        | termbox.KeyOther =>
            carryOn
              (when (negb (termbox.Ch ev =? 0))
                 (performOperation OperationInsert ev))
        end
    | termbox.EventOther => ret None
    end ;;
  match r with
  | Some err => ret (Some err)
  | None => e_SendDraw ;; ret None
  end.

(** [handleMsg] updates the CRDT document with the contents of the
    message. *)
Definition handleMsg (msg : commons.Message) : M unit :=
  match commons.MsgType msg with
  | commons.DocSyncMessage =>
      logger_Infof "DOCSYNC RECEIVED, updating local doc" ;;
      modify (set_doc (commons.Doc msg)) ;;
      d <- gets doc ;;
      e_SetText (crdt.Content d)
  | commons.DocReqMessage =>
      logger_Infof "DOCREQ RECEIVED, sending local document" ;;
      d <- gets doc ;;
      _ <- conn_WriteJSON
             (commons.mkMessage commons.DocSyncMessage (commons.ID msg) "" ""
                commons.zeroOperation d) ;;
      ret tt
  | commons.SiteIDMessage =>
      let (siteID, err) := strconv.Atoi (commons.Text msg) in
      when (match err with Some _ => true | None => false end)
        (logger_Errorf "failed to set siteID") ;;
      modify (set_SiteID siteID) ;;
      logger_Infof "SITE ID"
  | commons.JoinMessage =>
      sendStatus (commons.Username msg ++ " has joined the session!")
  | commons.UsersMessage =>
      modify (fun w =>
                set_e (set_Users (strings.Split (commons.Text msg) ",") (e w)) w)
  | commons.OtherMessage _ =>
      let op := commons.Op msg in
      if String.eqb (commons.OpType op) "insert" then
        r <- doc_Insert (commons.Position op) (commons.Value op) ;;
        when (match snd r with Some _ => true | None => false end)
          (logger_Errorf "failed to insert") ;;
        d <- gets doc ;;
        e_SetText (crdt.Content d) ;;
        c <- gets (fun w => Cursor (e w)) ;;
        when (sub64 (commons.Position op) 1 <=? c)
          (e_MoveCursor (len (commons.Value op)) 0) ;;
        logger_Infof "REMOTE INSERT"
      else if String.eqb (commons.OpType op) "delete" then
        _ <- doc_Delete (commons.Position op) ;;
        d <- gets doc ;;
        e_SetText (crdt.Content d) ;;
        c <- gets (fun w => Cursor (e w)) ;;
        when (sub64 (commons.Position op) 1 <=? c)
          (e_MoveCursor (- len (commons.Value op)) 0) ;;
        logger_Infof "REMOTE DELETE"
      else ret tt
  end ;;
  printDoc ;;
  e_SendDraw.

(** The messages of a list handled one after the other. *)
Fixpoint handleMsgs (msgs : list commons.Message) : M unit :=
  match msgs with
  | [] => ret tt
  | m :: r => handleMsg m ;; handleMsgs r
  end.

End Engine.

Local Close Scope engine_scope.

(* ================================================================== *)
(** * What the engine's operation messages do to the visible text *)

(** A message that [handleMsg] treats as an operation: one of no other
    kind. *)
Definition isOperation (m : commons.Message) : bool :=
  match commons.MsgType m with
  | commons.OtherMessage _ => true
  | _ => false
  end.

(** The edit an operation names, on the list of visible values: a value put
    at the (1-based) position, or the value at the position taken out; a
    position outside the visible bounds changes nothing. *)
Definition applyOp (op : commons.Operation) (vv : list string) : list string :=
  let p := commons.Position op in
  let n := Z.of_nat (List.length vv) in
  if String.eqb (commons.OpType op) "insert" then
    if (1 <=? p) && (p <=? n + 1)
    then insertAt (Z.to_nat (p - 1)) (commons.Value op) vv else vv
  else if String.eqb (commons.OpType op) "delete" then
    if (1 <=? p) && (p <=? n)
    then removeAt (Z.to_nat (p - 1)) vv else vv
  else vv.

(** An operation whose position lies outside the visible bounds of a
    document with [n] visible characters, or whose type is neither insert
    nor delete. *)
Definition outOfRange (op : commons.Operation) (n : Z) : bool :=
  let p := commons.Position op in
  if String.eqb (commons.OpType op) "insert" then (p <? 1) || (n + 1 <? p)
  else if String.eqb (commons.OpType op) "delete" then (p <? 1) || (n <? p)
  else true.

(** The position a local delete works at: the cursor, or 0 when the cursor
    less one is negative. *)
Definition deletePosition (c : Z) : Z :=
  if sub64 c 1 <? 0 then 0 else c.

(** The messages written to the connection between two states. *)
Definition sentBetween (w w' : World) : list commons.Message :=
  skipn (List.length (wire (conn w))) (wire (conn w')).

(** The nodes of [w'] minted with the site and counter of [w]. *)
Definition mintedBetween (w w' : World) : list crdt.Character :=
  filter (fun c => (crdt.site c =? SiteID w) && (crdt.counter c =? Counter w)
                   && crdt.visible c)
         (doc w').

(** A computation that leaves the site id as it was. *)
Definition keepsSite {A : Type} (m : M A) : Prop :=
  forall w : World, SiteID (snd (m w)) = SiteID w.

Definition isError (l : Level * string) : bool :=
  match fst l with ErrorLevel => true | InfoLevel => false end.

(* ================================================================== *)
(** * A reference replica

    Concrete choices for what the engine leaves open, used to run it: an
    editor that moves the cursor horizontally within the text, a loader that
    rejects every file and a save that succeeds. *)

Definition clampMove (ed : Editor) (x y : Z) : Z :=
  Z.max 0 (Z.min (len (Text ed)) (Cursor ed + x)).

(** An editor whose [MoveCursor] adds the horizontal increment, without
    bounds. *)
Definition plainMove (ed : Editor) (x y : Z) : Z := Cursor ed + x.

Definition rejectLoad (f : string) : crdt.Document * option error :=
  (crdt.New, Some CorruptStateError).

Definition okSave (f : string) (d : crdt.Document) : option error := None.

(** A connected replica with the empty document and a given site id. *)
Definition replica (site : Z) : World :=
  mkWorld crdt.New site 0 "" (mkEditor "" 0 true []) [] (mkConn false []) [] 0.

Definition keyCh (r : rune) : termbox.Event :=
  termbox.mkEvent termbox.EventKey termbox.KeyOther r.

Definition keyOf (k : termbox.Key) : termbox.Event :=
  termbox.mkEvent termbox.EventKey k 0.

(** The replica after the given key events. *)
Definition afterKeys (evs : list termbox.Event) (w : World) : World :=
  fold_left
    (fun w ev => exec (handleTermboxEvent crdt.Delete clampMove len rejectLoad okSave ev) w)
    evs w.

Definition siteMessage (t : string) : commons.Message :=
  commons.mkMessage commons.SiteIDMessage "" t "" commons.zeroOperation [].

Definition docSyncMessage (d : crdt.Document) : commons.Message :=
  commons.mkMessage commons.DocSyncMessage "" "" "" commons.zeroOperation d.

(** The replica of a site after typing the given runes. *)
Definition typed (site : Z) (rs : list rune) : World :=
  afterKeys (map keyCh rs) (replica site).

Definition backspace : termbox.Event := keyOf termbox.KeyBackspace.

(** The messages a replica has written to its connection. *)
Definition outbox (w : World) : list commons.Message := wire (conn w).

(** The replica of site 1 after typing "abc" and then receiving the empty
    document in a DocSync message: the text is empty and the cursor is still
    at 3. *)
Definition resynced : World :=
  exec (handleMsg crdt.Delete clampMove (docSyncMessage crdt.New)) (typed 1 [97; 98; 99]).

(* ================================================================== *)
(** * Further notions for the handlers *)

(** [R] relates every state to the state a computation leaves it in. *)
Definition respects {A : Type} (R : World -> World -> Prop) (m : M A) : Prop :=
  forall w : World, R w (snd (m w)).

(** The connection flag is not raised: it is on afterwards only if it was on
    before. *)
Definition notReconnected (w w' : World) : Prop :=
  IsConnected (e w') = true -> IsConnected (e w) = true.

(** The keys after which [handleTermboxEvent] may return an error. *)
Definition mayFail (k : termbox.Key) : bool :=
  match k with
  | termbox.KeyEsc | termbox.KeyCtrlC | termbox.KeyCtrlS | termbox.KeyCtrlL => true
  | _ => false
  end.

(** The keys that only move the cursor. *)
Definition isNavigation (k : termbox.Key) : bool :=
  match k with
  | termbox.KeyArrowLeft | termbox.KeyCtrlB | termbox.KeyArrowRight
  | termbox.KeyCtrlF | termbox.KeyArrowUp | termbox.KeyCtrlP
  | termbox.KeyArrowDown | termbox.KeyCtrlN | termbox.KeyHome
  | termbox.KeyEnd => true
  | _ => false
  end.

(** The file name Ctrl+S saves under. *)
Definition saveName (f : string) : string :=
  if String.eqb f "" then "pairpad-content.txt" else f.

(** A loader that accepts every file as the document [d], and a save that
    fails. *)
Definition acceptLoad (d : crdt.Document) (f : string)
    : crdt.Document * option error := (d, None).

Definition failSave (f : string) (d : crdt.Document) : option error :=
  Some (errorString "disk full").

(** A replica whose connection no longer takes writes, and one marked
    disconnected. *)
Definition severed (w : World) : World :=
  set_conn (mkConn true (wire (conn w))) w.

Definition offline (w : World) : World :=
  set_e (set_IsConnected false (e w)) w.

Definition docReqMessage (id : string) : commons.Message :=
  commons.mkMessage commons.DocReqMessage id "" "" commons.zeroOperation [].

Definition usersMessage (t : string) : commons.Message :=
  commons.mkMessage commons.UsersMessage "" t "" commons.zeroOperation [].

(* ================================================================== *)
(** * Facts about identifiers *)

Module IdFacts.
Import crdt.

Lemma pair_compare_refl (p : Pair) : pair_compare p p = Eq.
Proof.
  unfold pair_compare. now rewrite !Z.compare_refl.
Qed.

Lemma pair_compare_eq (p q : Pair) : pair_compare p q = Eq -> p = q.
Proof.
  destruct p as [d s], q as [d' s']. unfold pair_compare. simpl.
  destruct (Z.compare_spec d d'); try discriminate.
  destruct (Z.compare_spec s s'); try discriminate.
  now subst.
Qed.

Lemma pair_compare_antisym (p q : Pair) :
  pair_compare q p = CompOpp (pair_compare p q).
Proof.
  destruct p as [d s], q as [d' s']. unfold pair_compare. simpl.
  rewrite (Z.compare_antisym d d'), (Z.compare_antisym s s').
  now destruct (d ?= d'), (s ?= s').
Qed.

Lemma pair_compare_lt_iff (p q : Pair) :
  pair_compare p q = Lt <->
  fst p < fst q \/ (fst p = fst q /\ snd p < snd q).
Proof.
  unfold pair_compare.
  destruct (Z.compare_spec (fst p) (fst q));
    destruct (Z.compare_spec (snd p) (snd q));
    split; intros; try discriminate; try lia; auto.
Qed.

Lemma pair_compare_lt_trans (p q r : Pair) :
  pair_compare p q = Lt -> pair_compare q r = Lt -> pair_compare p r = Lt.
Proof.
  rewrite !pair_compare_lt_iff. lia.
Qed.

Lemma compare_refl (a : Identifier) : compare a a = Eq.
Proof.
  induction a as [|p a IH]; simpl; auto.
  now rewrite pair_compare_refl.
Qed.

Lemma compare_eq (a b : Identifier) : compare a b = Eq -> a = b.
Proof.
  revert b. induction a as [|p a IH]; intros [|q b]; simpl; try discriminate; auto.
  destruct (pair_compare p q) eqn:E; try discriminate.
  intros H. apply pair_compare_eq in E. apply IH in H. now subst.
Qed.

Lemma compare_antisym (a b : Identifier) :
  compare b a = CompOpp (compare a b).
Proof.
  revert b. induction a as [|p a IH]; intros [|q b]; simpl; auto.
  rewrite (pair_compare_antisym p q).
  destruct (pair_compare p q); simpl; auto.
Qed.

Lemma lt_cons (p q : Pair) (a b : Identifier) :
  lt (p :: a) (q :: b) <->
  pair_compare p q = Lt \/ (p = q /\ lt a b).
Proof.
  unfold lt. simpl. destruct (pair_compare p q) eqn:E.
  - apply pair_compare_eq in E. subst. split; auto.
    intros [H|[_ H]]; auto. discriminate.
  - split; auto.
  - split; try discriminate. intros [H|[H _]]; try discriminate.
    subst. now rewrite pair_compare_refl in E.
Qed.

Lemma lt_irrefl (a : Identifier) : ~ lt a a.
Proof.
  unfold lt. now rewrite compare_refl.
Qed.

Lemma lt_trans (a b c : Identifier) : lt a b -> lt b c -> lt a c.
Proof.
  revert b c. induction a as [|p a IH]; intros [|q b] [|r c]; try discriminate; auto.
  rewrite !lt_cons. intros [H1|[-> H1]] [H2|[-> H2]].
  - left. eapply pair_compare_lt_trans; eauto.
  - now left.
  - now left.
  - right. split; auto. eapply IH; eauto.
Qed.

Lemma ltb_lt (a b : Identifier) : ltb a b = true <-> lt a b.
Proof.
  unfold ltb, lt. destruct (compare a b); split; auto; discriminate.
Qed.

Lemma ltb_false_le (a b : Identifier) : ltb a b = false <-> le b a.
Proof.
  unfold ltb, le. rewrite (compare_antisym a b).
  destruct (compare a b); simpl; split; auto; try discriminate; congruence.
Qed.

Lemma le_lt_or_eq (a b : Identifier) : le a b <-> lt a b \/ a = b.
Proof.
  unfold le, lt. split.
  - destruct (compare a b) eqn:E; auto.
    + right. now apply compare_eq.
    + congruence.
  - intros [H| ->]; [rewrite H | rewrite compare_refl]; discriminate.
Qed.

Lemma le_refl (a : Identifier) : le a a.
Proof. apply le_lt_or_eq. now right. Qed.

Lemma lt_le (a b : Identifier) : lt a b -> le a b.
Proof. intros. apply le_lt_or_eq. now left. Qed.

Lemma le_lt_trans (a b c : Identifier) : le a b -> lt b c -> lt a c.
Proof.
  rewrite le_lt_or_eq. intros [H| ->]; auto. now apply lt_trans.
Qed.

Lemma lt_le_trans (a b c : Identifier) : lt a b -> le b c -> lt a c.
Proof.
  rewrite le_lt_or_eq. intros H [H'| <-]; auto. eapply lt_trans; eauto.
Qed.

Lemma le_trans (a b c : Identifier) : le a b -> le b c -> le a c.
Proof.
  rewrite (le_lt_or_eq a b). intros [H| ->]; auto.
  intros. apply lt_le. eapply lt_le_trans; eauto.
Qed.

Lemma lt_not_le (a b : Identifier) : lt a b -> ~ le b a.
Proof.
  intros H H'. apply (lt_irrefl a). eapply lt_le_trans; eauto.
Qed.

Lemma above_lt (l : Identifier) (s : Z) : lt l (above l s).
Proof.
  destruct l as [|[d t] l]; simpl; auto.
  - reflexivity.
  - apply lt_cons. left. apply pair_compare_lt_iff. simpl. lia.
Qed.

(** [walk] lands strictly between its bounds. *)
Lemma walk_between (low high : Identifier) (s : Z) :
  lt low high -> lt low (walk low high s) /\ lt (walk low high s) high.
Proof.
  revert high. induction low as [|[dl sl] l' IH]; intros [|[dh sh] h'] H;
    try discriminate.
  - simpl. split; [reflexivity|].
    apply lt_cons. left. apply pair_compare_lt_iff. simpl. lia.
  - simpl. destruct (Z.leb_spec (dl + 2) dh) as [G|G].
    + split; apply lt_cons; left; apply pair_compare_lt_iff; simpl; lia.
    + apply lt_cons in H.
      destruct (pair_compare (dl, sl) (dh, sh)) eqn:E.
      * destruct H as [H|[Hp H]]; [discriminate|].
        destruct (IH _ H) as [A B].
        split; apply lt_cons; right; auto.
      * split; apply lt_cons; auto.
        right. split; auto. apply above_lt.
      * destruct H as [H|[Hp H]]; [discriminate|].
        rewrite Hp, pair_compare_refl in E. discriminate.
Qed.

Lemma between_ok (low high : Identifier) (s : Z) :
  lt low high ->
  exists id, between low high s = inr id /\ lt low id /\ lt id high.
Proof.
  intros H. unfold between. rewrite (proj2 (ltb_lt _ _) H).
  eexists. split; eauto. now apply walk_between.
Qed.

End IdFacts.

(* ================================================================== *)
(** * Facts about documents *)

Module DocFacts.
Import crdt IdFacts.

Lemma In_insertSorted (c x : Character) (d : Document) :
  In x (insertSorted c d) <-> x = c \/ In x d.
Proof.
  induction d as [|a d IH]; simpl.
  - intuition.
  - destruct (ltb (identifier c) (identifier a)); simpl; rewrite ?IH; intuition.
Qed.

Lemma insertSorted_sorted (c : Character) (d : Document) :
  StronglySorted le (map identifier d) ->
  StronglySorted le (map identifier (insertSorted c d)).
Proof.
  induction d as [|a d IH]; simpl; intros H.
  - repeat constructor.
  - inversion H as [|? ? Hs Hf]; subst.
    destruct (ltb (identifier c) (identifier a)) eqn:E; simpl.
    + apply ltb_lt in E. constructor; auto.
      constructor; [now apply lt_le|].
      eapply Forall_impl; [|exact Hf].
      intros y Hy. apply lt_le. eapply lt_le_trans; eauto.
    + apply ltb_false_le in E. constructor; auto.
      apply Forall_forall. intros y Hy.
      apply in_map_iff in Hy. destruct Hy as [x [<- Hx]].
      apply In_insertSorted in Hx. destruct Hx as [->|Hx]; auto.
      rewrite Forall_forall in Hf. apply Hf. now apply in_map.
Qed.

Lemma rank_all_above (x : Identifier) (ids : list Identifier) :
  Forall (lt x) ids -> rank x ids = 0%nat.
Proof.
  unfold rank. induction 1 as [|y ids Hy _ IH]; simpl; auto.
  now rewrite (proj2 (ltb_lt _ _) Hy).
Qed.

(** Where the sorted insertion of a visible node lands among the visible
    nodes. *)
Lemma filter_insertSorted (c : Character) (d : Document) :
  visible c = true ->
  StronglySorted le (map identifier d) ->
  filter visible (insertSorted c d) =
  insertAt (rank (identifier c) (visibleIds d)) c (filter visible d).
Proof.
  intros Hc. unfold insertAt.
  induction d as [|a d IH]; simpl; intros H.
  - now rewrite Hc.
  - inversion H as [|? ? Hs Hf]; subst.
    destruct (ltb (identifier c) (identifier a)) eqn:E.
    + assert (R : rank (identifier c) (visibleIds (a :: d)) = 0%nat).
      { apply rank_all_above. apply ltb_lt in E.
        apply Forall_forall. intros y Hy.
        unfold visibleIds in Hy. apply in_map_iff in Hy.
        destruct Hy as [x [<- Hx]]. apply filter_In in Hx. destruct Hx as [Hx _].
        destruct Hx as [->|Hx]; auto.
        eapply lt_le_trans; eauto.
        rewrite Forall_forall in Hf. apply Hf. now apply in_map. }
      rewrite R. simpl. now rewrite Hc.
    + simpl. rewrite (IH Hs). unfold visibleIds. simpl.
      destruct (visible a) eqn:Va; simpl; auto.
      unfold rank. simpl. rewrite E. simpl. reflexivity.
Qed.

Lemma sorted_head_le_nth (a : Identifier) (l : list Identifier) (i : nat) (d : Identifier) :
  StronglySorted lt (a :: l) -> (i < List.length (a :: l))%nat ->
  le a (nth i (a :: l) d).
Proof.
  intros H Hi. destruct i as [|i]; simpl.
  - apply le_refl.
  - inversion H as [|? ? _ Hf]; subst. apply lt_le.
    rewrite Forall_forall in Hf. apply Hf. apply nth_In. simpl in Hi. lia.
Qed.

(** The rank of an identifier that falls between two neighbours of a
    strictly sorted list. *)
Lemma rank_between (x : Identifier) (ids : list Identifier) :
  forall (b e : Identifier) (i : nat) (d1 d2 : Identifier),
    StronglySorted lt (b :: ids ++ [e]) ->
    (i <= List.length ids)%nat ->
    lt (nth i (b :: ids) d1) x ->
    lt x (nth i (ids ++ [e]) d2) ->
    rank x ids = i.
Proof.
  induction ids as [|y ys IH]; intros b e i d1 d2 H Hi Hlo Hhi.
  - simpl in Hi. assert (i = 0%nat) by lia. now subst.
  - inversion H as [|? ? Hs Hf]; subst.
    destruct i as [|i].
    + simpl in Hhi. apply rank_all_above. constructor; auto.
      simpl in Hs. inversion Hs as [|? ? _ Hf']; subst.
      apply Forall_forall. intros z Hz. eapply lt_trans; eauto.
      rewrite Forall_forall in Hf'. apply Hf'. apply in_or_app. now left.
    + simpl in Hi. simpl in Hhi.
      change (nth (S i) (b :: y :: ys) d1) with (nth i (y :: ys) d1) in Hlo.
      assert (Hy : lt y x).
      { eapply le_lt_trans; [|exact Hlo].
        apply sorted_head_le_nth; [|simpl; lia].
        simpl in Hs. inversion Hs as [|? ? Hs' Hf']; subst.
        constructor.
        - clear - Hs'. induction ys as [|z zs IHz]; simpl in *; [constructor|].
          inversion Hs' as [|? ? Hs'' Hf'']; subst. constructor; auto.
          apply Forall_app in Hf''. tauto.
        - apply Forall_app in Hf'. tauto. }
      unfold rank. simpl.
      assert (Hn : ltb x y = false).
      { destruct (ltb x y) eqn:E; auto. apply ltb_lt in E.
        exfalso. apply (lt_irrefl x). eapply lt_trans; eauto. }
      rewrite Hn. simpl. f_equal.
      apply (IH y e i d1 d2); auto. lia.
Qed.

Lemma sorted_app_r (l1 l2 : list Identifier) :
  StronglySorted lt (l1 ++ l2) -> StronglySorted lt l2.
Proof.
  induction l1 as [|a l1 IH]; simpl; auto.
  intros H. inversion H; subst. auto.
Qed.

Lemma sorted_nth_lt (l : list Identifier) :
  forall (i j : nat) (d1 d2 : Identifier),
    StronglySorted lt l -> (i < j)%nat -> (j < List.length l)%nat ->
    lt (nth i l d1) (nth j l d2).
Proof.
  induction l as [|a l IH]; intros i j d1 d2 H Hij Hj; simpl in Hj; [lia|].
  inversion H as [|? ? Hs Hf]; subst.
  destruct j as [|j]; [lia|]. destruct i as [|i]; simpl.
  - rewrite Forall_forall in Hf. apply Hf. apply nth_In. lia.
  - apply IH; auto; lia.
Qed.

(** Putting [x] between two neighbours keeps a list strictly sorted. *)
Lemma sorted_insertAt (x : Identifier) (l : list Identifier) :
  forall (i : nat) (d1 d2 : Identifier),
    StronglySorted lt l -> (S i < List.length l)%nat ->
    lt (nth i l d1) x -> lt x (nth (S i) l d2) ->
    StronglySorted lt (insertAt (S i) x l).
Proof.
  unfold insertAt.
  induction l as [|a l IH]; intros i d1 d2 H Hi Hlo Hhi; simpl in Hi; [lia|].
  inversion H as [|? ? Hs Hf]; subst.
  destruct i as [|i].
  - simpl in *. destruct l as [|h t]; simpl in *; [lia|].
    constructor.
    + constructor; auto. inversion Hs as [|? ? _ Hf']; subst.
      constructor; auto. eapply Forall_impl; [|exact Hf'].
      intros z Hz. eapply lt_trans; eauto.
    + constructor; auto.
  - change (firstn (S (S i)) (a :: l)) with (a :: firstn (S i) l).
    change (skipn (S (S i)) (a :: l)) with (skipn (S i) l).
    simpl. constructor.
    + apply (IH i d1 d2); auto. lia.
    + rewrite <- (firstn_skipn (S i) l) in Hf.
      apply Forall_app in Hf. destruct Hf as [F1 F2].
      apply Forall_app. split; auto. constructor; auto.
      eapply lt_trans; [|exact Hlo].
      simpl. inversion H as [|? ? _ Hf']; subst.
      rewrite Forall_forall in Hf'. apply Hf'. apply nth_In. lia.
Qed.

Lemma In_removeAt {A : Type} (x : A) (i : nat) (l : list A) :
  In x (removeAt i l) -> In x l.
Proof.
  unfold removeAt. revert i. induction l as [|a l IH]; intros i H.
  - now destruct i.
  - destruct i as [|i]; simpl in H.
    + now right.
    + destruct H as [H|H]; [now left|]. right. now apply (IH i).
Qed.

Lemma sorted_removeAt (l : list Identifier) (i : nat) :
  StronglySorted lt l -> StronglySorted lt (removeAt i l).
Proof.
  revert i. induction l as [|a l IH]; intros i H.
  - now destruct i.
  - inversion H as [|? ? Hs Hf]; subst. destruct i as [|i]; auto.
    change (removeAt (S i) (a :: l)) with (a :: removeAt i l).
    constructor; [now apply IH|].
    apply Forall_forall. intros x Hx. apply In_removeAt in Hx.
    rewrite Forall_forall in Hf. now apply Hf.
Qed.

Lemma insertAt_bounds {A : Type} (b e x : A) (l : list A) (i : nat) :
  (i <= List.length l)%nat ->
  b :: insertAt i x l ++ [e] = insertAt (S i) x (b :: l ++ [e]).
Proof.
  intros Hi. unfold insertAt. simpl.
  rewrite firstn_app, skipn_app.
  replace (i - List.length l)%nat with 0%nat by lia. simpl.
  now rewrite app_nil_r, <- app_assoc.
Qed.

Lemma removeAt_bounds {A : Type} (b e : A) (l : list A) (i : nat) :
  (i < List.length l)%nat ->
  b :: removeAt i l ++ [e] = removeAt (S i) (b :: l ++ [e]).
Proof.
  intros Hi. unfold removeAt.
  change (firstn (S i) (b :: l ++ [e])) with (b :: firstn i (l ++ [e])).
  change (skipn (S (S i)) (b :: l ++ [e])) with (skipn (S i) (l ++ [e])).
  rewrite firstn_app, skipn_app.
  replace (i - List.length l)%nat with 0%nat by lia.
  replace (S i - List.length l)%nat with 0%nat by lia. simpl.
  now rewrite app_nil_r, <- app_assoc.
Qed.

Lemma map_insertAt {A B : Type} (f : A -> B) (i : nat) (x : A) (l : list A) :
  map f (insertAt i x l) = insertAt i (f x) (map f l).
Proof.
  unfold insertAt. now rewrite map_app, firstn_map, skipn_map.
Qed.

Lemma map_removeAt {A B : Type} (f : A -> B) (i : nat) (l : list A) :
  map f (removeAt i l) = removeAt i (map f l).
Proof.
  unfold removeAt. now rewrite map_app, firstn_map, skipn_map.
Qed.

Lemma visibleIds_length (d : Document) :
  Z.of_nat (List.length (visibleIds d)) = visibleLength d.
Proof.
  unfold visibleIds, visibleLength. now rewrite length_map.
Qed.

Lemma visibleValues_length (d : Document) :
  Z.of_nat (List.length (visibleValues d)) = visibleLength d.
Proof.
  unfold visibleValues, visibleLength. now rewrite length_map.
Qed.

Lemma New_WF : WF New.
Proof.
  split; simpl.
  - repeat constructor; discriminate.
  - repeat constructor.
Qed.

(** A local insert within the visible bounds of a well-formed document
    succeeds, puts the new node at that visible index and keeps the
    document well formed. *)
Lemma LocalInsert_ok (d : Document) (vi : Z) (v : string) (st cnt : Z) :
  WF d -> 0 <= vi <= visibleLength d ->
  exists id,
    let c := mkCharacter id v st cnt false in
    LocalInsert d vi v st cnt =
      inr (insertSorted c d, mkRecord KInsert id v st cnt) /\
    filter visible (insertSorted c d) =
      insertAt (Z.to_nat vi) c (filter visible d) /\
    WF (insertSorted c d).
Proof.
  intros [Hs Hv] Hvi. unfold LocalInsert.
  destruct (Z.ltb_spec vi 0) as [?|_]; [lia|].
  destruct (Z.ltb_spec (visibleLength d) vi) as [?|_]; [lia|]. simpl.
  set (i := Z.to_nat vi). set (ids := visibleIds d) in *.
  assert (Hi : (i <= List.length ids)%nat).
  { pose proof (visibleIds_length d). fold ids in H. lia. }
  set (L := beginId :: ids ++ [endId]) in *.
  assert (HL : List.length L = S (S (List.length ids))).
  { unfold L. simpl. rewrite length_app. simpl. lia. }
  assert (Elo : lowerBound d i = nth i L beginId).
  { unfold lowerBound, L. fold ids.
    change (beginId :: ids ++ [endId]) with ((beginId :: ids) ++ [endId]).
    rewrite app_nth1; auto. simpl. lia. }
  assert (Ehi : upperBound d i = nth (S i) L endId) by reflexivity.
  assert (Hlt : lt (lowerBound d i) (upperBound d i)).
  { rewrite Elo, Ehi. apply sorted_nth_lt; auto; lia. }
  destruct (between_ok _ _ st Hlt) as [id [Eb [Hlo Hhi]]].
  exists id. cbv zeta. rewrite Eb.
  set (c := mkCharacter id v st cnt false).
  assert (Hb : lt beginId id).
  { eapply le_lt_trans; [|exact Hlo]. rewrite Elo.
    apply sorted_head_le_nth; auto. fold L. lia. }
  assert (He : lt id endId).
  { eapply lt_le_trans; [exact Hhi|]. rewrite Ehi.
    assert (En : nth (S (List.length ids)) L endId = endId).
    { unfold L. simpl. rewrite app_nth2; auto.
      now replace (List.length ids - List.length ids)%nat with 0%nat by lia. }
    destruct (Nat.eq_dec i (List.length ids)) as [->|Hne].
    - rewrite En. apply le_refl.
    - rewrite <- En at 2. apply lt_le. apply sorted_nth_lt; auto; lia. }
  assert (Vc : visible c = true).
  { unfold visible, isSentinel, eqb. simpl.
    unfold lt in He. rewrite He.
    unfold lt in Hb. rewrite (compare_antisym beginId id), Hb. reflexivity. }
  assert (Hr : rank id ids = i).
  { apply (rank_between id ids beginId endId i beginId endId); auto. }
  assert (Hf : filter visible (insertSorted c d) = insertAt i c (filter visible d)).
  { rewrite filter_insertSorted; auto. simpl. fold ids. now rewrite Hr. }
  split; [reflexivity|]. split; [exact Hf|].
  split; [now apply insertSorted_sorted|].
  unfold visibleIds. rewrite Hf, map_insertAt. simpl.
  fold (visibleIds d). fold ids.
  rewrite insertAt_bounds; auto.
  apply (sorted_insertAt id _ i beginId endId); auto.
  - fold L. lia.
  - fold L. now rewrite <- Elo.
Qed.

Lemma filter_tombstoneNth (d : Document) :
  forall k : nat,
    filter visible (tombstoneNth k d) = removeAt k (filter visible d).
Proof.
  unfold removeAt.
  induction d as [|c d IH]; intros k; simpl.
  - now destruct k.
  - destruct (visible c) eqn:V; simpl.
    + destruct k as [|k]; simpl.
      * unfold visible at 1. simpl. reflexivity.
      * now rewrite V, IH.
    + now rewrite V, IH.
Qed.

Lemma map_identifier_tombstoneNth (d : Document) :
  forall k : nat, map identifier (tombstoneNth k d) = map identifier d.
Proof.
  induction d as [|c d IH]; intros k; simpl; auto.
  destruct (negb (visible c)); simpl; [now rewrite IH|].
  destruct k; simpl; auto. now rewrite IH.
Qed.

Lemma tombstoneNth_WF (d : Document) (k : nat) :
  WF d -> WF (tombstoneNth k d).
Proof.
  intros [Hs Hv]. split.
  - now rewrite map_identifier_tombstoneNth.
  - unfold visibleIds. rewrite filter_tombstoneNth, map_removeAt.
    fold (visibleIds d).
    destruct (Nat.lt_ge_cases k (List.length (visibleIds d))) as [Hk|Hk].
    + rewrite removeAt_bounds; auto. now apply sorted_removeAt.
    + unfold removeAt. rewrite firstn_all2, skipn_all2 by lia.
      now rewrite app_nil_r.
Qed.

(** ** [doc.Insert] and [doc.Delete] on the visible values *)

Lemma Insert_ok (d : Document) (st cnt p : Z) (v : string) :
  WF d -> 1 <= p <= visibleLength d + 1 ->
  exists d',
    Insert d st cnt p v = (d', cnt + 1, (Content d', None)) /\
    WF d' /\
    visibleValues d' = insertAt (Z.to_nat (p - 1)) v (visibleValues d).
Proof.
  intros Hwf Hp.
  destruct (LocalInsert_ok d (p - 1) v st cnt Hwf) as [id [E [Hf Hw]]]; [lia|].
  cbv zeta in *. eexists. unfold Insert. rewrite E.
  split; [reflexivity|]. split; auto.
  unfold visibleValues. now rewrite Hf, map_insertAt.
Qed.

Lemma Insert_out_of_range (d : Document) (st cnt p : Z) (v : string) :
  p < 1 \/ visibleLength d + 1 < p ->
  Insert d st cnt p v = (d, cnt, (Content d, Some IndexOutOfRange)).
Proof.
  intros Hp. unfold Insert, LocalInsert.
  destruct (Z.ltb_spec (p - 1) 0); simpl; auto.
  destruct (Z.ltb_spec (visibleLength d) (p - 1)); simpl; auto. lia.
Qed.

Lemma Delete_ok (d : Document) (p : Z) :
  1 <= p <= visibleLength d ->
  exists d',
    Delete d p = (d', Content d') /\
    (WF d -> WF d') /\
    visibleValues d' = removeAt (Z.to_nat (p - 1)) (visibleValues d).
Proof.
  intros Hp. unfold Delete, LocalDelete.
  destruct (Z.ltb_spec (p - 1) 0); [lia|].
  destruct (Z.leb_spec (visibleLength d) (p - 1)); [lia|]. simpl.
  eexists. split; [reflexivity|]. split.
  - apply tombstoneNth_WF.
  - unfold visibleValues. now rewrite filter_tombstoneNth, map_removeAt.
Qed.

Lemma Delete_out_of_range (d : Document) (p : Z) :
  p < 1 \/ visibleLength d < p ->
  Delete d p = (d, Content d).
Proof.
  intros Hp. unfold Delete, LocalDelete.
  destruct (Z.ltb_spec (p - 1) 0); simpl; auto.
  destruct (Z.leb_spec (visibleLength d) (p - 1)); simpl; auto. lia.
Qed.

End DocFacts.

(* ================================================================== *)
(** * Facts about the engine *)

Arguments crdt.Insert : simpl never.
Arguments crdt.Delete : simpl never.
Arguments crdt.Content : simpl never.

Ltac run :=
  cbv [exec performOperation handleMsg handleTermboxEvent repeatM
       bind ret gets modify when
       logger_Infof logger_Errorf sendStatus conn_WriteJSON printDoc
       e_SetText e_SetX e_SendDraw e_MoveCursor doc_Insert doc_Delete
       OperationInsert OperationDelete operationMessage].

Section EngineFacts.

Variable moveCursor : Editor -> Z -> Z -> Z.
Variable lenText : string -> Z.
Variable Load : string -> crdt.Document * option error.
Variable Save : string -> crdt.Document -> option error.

Local Abbreviation perform := (performOperation crdt.Delete moveCursor).
Local Abbreviation handle := (handleMsg crdt.Delete moveCursor).
Local Abbreviation onKey :=
  (handleTermboxEvent crdt.Delete moveCursor lenText Load Save).

(** ** What a remote operation does to the document *)

Lemma handleMsg_insert (m : commons.Message) (w : World) :
  isOperation m = true ->
  commons.OpType (commons.Op m) = "insert" ->
  let r := crdt.Insert (doc w) (SiteID w) (Counter w)
             (commons.Position (commons.Op m)) (commons.Value (commons.Op m)) in
  doc (exec (handle m) w) = fst (fst r) /\
  Counter (exec (handle m) w) = snd (fst r) /\
  SiteID (exec (handle m) w) = SiteID w.
Proof.
  unfold isOperation. intros Hm Ho. run.
  destruct (commons.MsgType m); try discriminate.
  rewrite Ho. cbn.
  destruct (crdt.Insert _ _ _ _ _) as [[d c] [text err]].
  destruct err; cbn;
    destruct (sub64 (commons.Position (commons.Op m)) 1 <=? Cursor (e w)); cbn; auto.
Qed.

Lemma handleMsg_delete (m : commons.Message) (w : World) :
  isOperation m = true ->
  commons.OpType (commons.Op m) = "delete" ->
  doc (exec (handle m) w) =
    fst (crdt.Delete (doc w) (commons.Position (commons.Op m))) /\
  Counter (exec (handle m) w) = Counter w /\
  SiteID (exec (handle m) w) = SiteID w.
Proof.
  unfold isOperation. intros Hm Ho. run.
  destruct (commons.MsgType m); try discriminate.
  rewrite Ho. cbn.
  destruct (crdt.Delete _ _) as [d text]. cbn.
  destruct (sub64 (commons.Position (commons.Op m)) 1 <=? Cursor (e w)); cbn; auto.
Qed.

Lemma handleMsg_other (m : commons.Message) (w : World) :
  isOperation m = true ->
  commons.OpType (commons.Op m) <> "insert" ->
  commons.OpType (commons.Op m) <> "delete" ->
  doc (exec (handle m) w) = doc w /\
  Counter (exec (handle m) w) = Counter w /\
  SiteID (exec (handle m) w) = SiteID w.
Proof.
  unfold isOperation. intros Hm Hi Hd. run.
  destruct (commons.MsgType m); try discriminate.
  apply String.eqb_neq in Hi, Hd. rewrite Hi, Hd. cbn. auto.
Qed.

(** A remote operation edits the visible values of a well-formed document
    as [applyOp] says, whatever the replica's site, counter and editor. *)
Lemma handleMsg_applyOp (m : commons.Message) (w : World) :
  isOperation m = true -> crdt.WF (doc w) ->
  crdt.WF (doc (exec (handle m) w)) /\
  crdt.visibleValues (doc (exec (handle m) w)) =
    applyOp (commons.Op m) (crdt.visibleValues (doc w)).
Proof.
  intros Hm Hwf. unfold applyOp.
  rewrite DocFacts.visibleValues_length.
  destruct (String.eqb_spec (commons.OpType (commons.Op m)) "insert") as [Hi|Hi].
  - destruct (handleMsg_insert m w Hm Hi) as [-> _].
    set (p := commons.Position (commons.Op m)).
    destruct (Z.leb_spec 1 p); destruct (Z.leb_spec p (crdt.visibleLength (doc w) + 1)); cbn [andb].
    + destruct (DocFacts.Insert_ok (doc w) (SiteID w) (Counter w) p
                  (commons.Value (commons.Op m)) Hwf) as [d' [E [W V]]]; [lia|].
      rewrite E. cbn. auto.
    + rewrite DocFacts.Insert_out_of_range by lia. cbn. auto.
    + rewrite DocFacts.Insert_out_of_range by lia. cbn. auto.
    + rewrite DocFacts.Insert_out_of_range by lia. cbn. auto.
  - destruct (String.eqb_spec (commons.OpType (commons.Op m)) "delete") as [Hd|Hd].
    + destruct (handleMsg_delete m w Hm Hd) as [-> _].
      set (p := commons.Position (commons.Op m)).
      destruct (Z.leb_spec 1 p); destruct (Z.leb_spec p (crdt.visibleLength (doc w))); cbn [andb].
      * destruct (DocFacts.Delete_ok (doc w) p) as [d' [E [W V]]]; [lia|].
        rewrite E. cbn. auto.
      * rewrite DocFacts.Delete_out_of_range by lia. cbn. auto.
      * rewrite DocFacts.Delete_out_of_range by lia. cbn. auto.
      * rewrite DocFacts.Delete_out_of_range by lia. cbn. auto.
    + destruct (handleMsg_other m w Hm Hi Hd) as [-> _]. auto.
Qed.

Lemma exec_handleMsgs_cons (m : commons.Message) (ms : list commons.Message) (w : World) :
  exec (handleMsgs crdt.Delete moveCursor (m :: ms)) w =
  exec (handleMsgs crdt.Delete moveCursor ms) (exec (handle m) w).
Proof.
  unfold exec. cbn [handleMsgs]. unfold bind at 1.
  now destruct (handle m w).
Qed.

(** The same operations handled in the same order leave equal visible
    values on replicas that started with equal visible values. *)
Lemma handleMsgs_visibleValues (ms : list commons.Message) :
  forall w1 w2 : World,
    forallb isOperation ms = true ->
    crdt.WF (doc w1) -> crdt.WF (doc w2) ->
    crdt.visibleValues (doc w1) = crdt.visibleValues (doc w2) ->
    crdt.visibleValues (doc (exec (handleMsgs crdt.Delete moveCursor ms) w1)) =
    crdt.visibleValues (doc (exec (handleMsgs crdt.Delete moveCursor ms) w2)).
Proof.
  induction ms as [|m ms IH]; intros w1 w2 Hop W1 W2 E; [exact E|].
  cbn in Hop. apply andb_prop in Hop. destruct Hop as [Hm Hms].
  rewrite !exec_handleMsgs_cons.
  destruct (handleMsg_applyOp m w1 Hm W1) as [W1' V1].
  destruct (handleMsg_applyOp m w2 Hm W2) as [W2' V2].
  apply IH; auto. now rewrite V1, V2, E.
Qed.

(** ** What a local delete does *)

Lemma skipn_app_exact {A : Type} (l r : list A) :
  skipn (List.length l) (l ++ r) = r.
Proof.
  rewrite skipn_app, skipn_all, Nat.sub_diag. reflexivity.
Qed.

(** The state after a local delete, step by step: the cursor brought back
    to 0 when the cursor less one is negative, the document delete at the
    cursor, the text
    set, the cursor moved left, and the message written when connected. *)
Lemma perform_delete_over
    (Delete : crdt.Document -> Z -> crdt.Document * string)
    (ev : termbox.Event) (w : World) :
  let c0 := deletePosition (Cursor (e w)) in
  let d := fst (Delete (doc w) c0) in
  let text := snd (Delete (doc w) c0) in
  let e1 := set_Text text (set_Cursor c0 (e w)) in
  let e2 := set_Cursor (moveCursor e1 (-1) 0) e1 in
  let msg := operationMessage "delete" c0 "" in
  let w' := exec (performOperation Delete moveCursor OperationDelete ev) w in
  doc w' = d /\ SiteID w' = SiteID w /\ Counter w' = Counter w /\
  Log w' = Log w ++ [(InfoLevel, "LOCAL DELETE")] /\
  (IsConnected (e w) = false ->
     e w' = e2 /\ conn w' = conn w /\ StatusChan w' = StatusChan w) /\
  (IsConnected (e w) = true -> broken (conn w) = false ->
     e w' = e2 /\ conn w' = mkConn false (wire (conn w) ++ [msg]) /\
     StatusChan w' = StatusChan w) /\
  (IsConnected (e w) = true -> broken (conn w) = true ->
     e w' = set_IsConnected false e2 /\ conn w' = conn w /\
     StatusChan w' = StatusChan w ++ ["lost connection!"]).
Proof.
  unfold deletePosition. run. cbn.
  destruct (sub64 (Cursor (e w)) 1 <? 0); cbn;
    match goal with
    | |- context [Delete ?d ?p] => destruct (Delete d p) as [d' text]
    end; cbn;
    destruct (IsConnected (e w)); cbn;
    destruct (broken (conn w)); cbn;
    repeat split; intros; try discriminate; auto.
Qed.

(** The same for the [crdt] package's [Delete]. *)
Lemma perform_delete (ev : termbox.Event) (w : World) :
  let c0 := deletePosition (Cursor (e w)) in
  let d := fst (crdt.Delete (doc w) c0) in
  let text := snd (crdt.Delete (doc w) c0) in
  let e1 := set_Text text (set_Cursor c0 (e w)) in
  let e2 := set_Cursor (moveCursor e1 (-1) 0) e1 in
  let msg := operationMessage "delete" c0 "" in
  let w' := exec (perform OperationDelete ev) w in
  doc w' = d /\ SiteID w' = SiteID w /\ Counter w' = Counter w /\
  Log w' = Log w ++ [(InfoLevel, "LOCAL DELETE")] /\
  (IsConnected (e w) = false ->
     e w' = e2 /\ conn w' = conn w /\ StatusChan w' = StatusChan w) /\
  (IsConnected (e w) = true -> broken (conn w) = false ->
     e w' = e2 /\ conn w' = mkConn false (wire (conn w) ++ [msg]) /\
     StatusChan w' = StatusChan w) /\
  (IsConnected (e w) = true -> broken (conn w) = true ->
     e w' = set_IsConnected false e2 /\ conn w' = conn w /\
     StatusChan w' = StatusChan w ++ ["lost connection!"]).
Proof.
  exact (perform_delete_over crdt.Delete ev w).
Qed.

Lemma conn_after_write (m : commons.Message) (w : World) :
  conn (exec (conn_WriteJSON m) w) =
  if broken (conn w) then conn w else mkConn false (wire (conn w) ++ [m]).
Proof.
  unfold exec, conn_WriteJSON. now destruct (broken (conn w)).
Qed.

Lemma sub64_small (a b : Z) :
  - 2 ^ 63 <= a - b < 2 ^ 63 -> sub64 a b = a - b.
Proof.
  intros H. unfold sub64, wrap64. rewrite Z.mod_small; lia.
Qed.

Lemma deletePosition_low (c : Z) :
  - 2 ^ 63 < c <= 0 -> deletePosition c = 0.
Proof.
  intros H. unfold deletePosition. rewrite sub64_small by lia.
  destruct (Z.ltb_spec (c - 1) 0); lia.
Qed.

Lemma deletePosition_max (c : Z) :
  - 2 ^ 63 < c < 2 ^ 63 -> deletePosition c = Z.max 0 c.
Proof.
  intros H. unfold deletePosition. rewrite sub64_small by lia.
  destruct (Z.ltb_spec (c - 1) 0); lia.
Qed.

(** C10: a delete requested with the cursor at 0 (or below) uses position 0.
    Whatever [doc.Delete] does, the document afterwards and the text shown
    are the ones that [Delete(0)] returned for the document as it was: the
    document delete at position 0 is performed.  The cursor is set to 0
    before [MoveCursor(-1, 0)], and when the client is connected the delete
    message at position 0 is written to the connection. *)
Theorem C10_delete_at_cursor_zero
    (Delete : crdt.Document -> Z -> crdt.Document * string)
    (ev : termbox.Event) (w : World) :
  - 2 ^ 63 < Cursor (e w) <= 0 ->
  let w' := exec (performOperation Delete moveCursor OperationDelete ev) w in
  let text := snd (Delete (doc w) 0) in
  doc w' = fst (Delete (doc w) 0) /\
  Text (e w') = text /\
  Cursor (e w') = moveCursor (set_Text text (set_Cursor 0 (e w))) (-1) 0 /\
  (IsConnected (e w) = true ->
     conn w' = conn (exec (conn_WriteJSON (operationMessage "delete" 0 "")) w) /\
     (broken (conn w) = false ->
        wire (conn w') = wire (conn w) ++ [operationMessage "delete" 0 ""])).
Proof.
  intros Hc. pose proof (perform_delete_over Delete ev w) as H. cbv zeta in *.
  rewrite deletePosition_low in H by lia.
  destruct H as [Hd [_ [_ [_ [Hn [Hok Hbad]]]]]].
  split; [exact Hd|].
  rewrite conn_after_write.
  destruct (IsConnected (e w)) eqn:Ic.
  - destruct (broken (conn w)) eqn:Br.
    + destruct (Hbad eq_refl eq_refl) as [He [Hcn _]]. rewrite He, Hcn. cbn.
      split; [reflexivity|]. split; [reflexivity|]. intros _.
      split; [reflexivity|]. intros; discriminate.
    + destruct (Hok eq_refl eq_refl) as [He [Hw _]]. rewrite He, Hw. cbn.
      split; [reflexivity|]. split; [reflexivity|]. intros _.
      split; [reflexivity|]. intros _. reflexivity.
  - destruct (Hn eq_refl) as [He _]. rewrite He. cbn.
    split; [reflexivity|]. split; [reflexivity|]. intros; discriminate.
Qed.

Lemma perform_delete_sent (ev : termbox.Event) (w : World) :
  let c0 := deletePosition (Cursor (e w)) in
  sentBetween w (exec (perform OperationDelete ev) w) =
  if IsConnected (e w) && negb (broken (conn w))
  then [operationMessage "delete" c0 ""] else [].
Proof.
  pose proof (perform_delete ev w) as H. cbv zeta in *.
  destruct H as [_ [_ [_ [_ [Hn [Hok Hbad]]]]]]. unfold sentBetween.
  destruct (IsConnected (e w)); [destruct (broken (conn w))|]; cbn.
  - destruct (Hbad eq_refl eq_refl) as [_ [-> _]]. apply skipn_all.
  - destruct (Hok eq_refl eq_refl) as [_ [-> _]]. cbn. apply skipn_app_exact.
  - destruct (Hn eq_refl) as [_ [-> _]]. apply skipn_all.
Qed.



(** ** What a local insert does *)

(** The state after a local insert, step by step: the document insert at
    [Cursor+1], the error logged if there is one, the text set, the cursor
    moved right, and the message written when connected. *)
Lemma perform_insert (ev : termbox.Event) (w : World) :
  let ch := string_of_rune (termbox.Ch ev) in
  let r := crdt.Insert (doc w) (SiteID w) (Counter w)
             (add64 (Cursor (e w)) 1) ch in
  let e1 := set_Text (fst (snd r)) (e w) in
  let e2 := set_Cursor (moveCursor e1 1 0) e1 in
  let msg := operationMessage "insert" (moveCursor e1 1 0) ch in
  let w' := exec (perform OperationInsert ev) w in
  doc w' = fst (fst r) /\ SiteID w' = SiteID w /\ Counter w' = snd (fst r) /\
  Log w' = Log w ++ (InfoLevel, "LOCAL INSERT") ::
             match snd (snd r) with
             | Some _ => [(ErrorLevel, "CRDT error")]
             | None => []
             end /\
  (IsConnected (e w) = false ->
     e w' = e2 /\ conn w' = conn w /\ StatusChan w' = StatusChan w) /\
  (IsConnected (e w) = true -> broken (conn w) = false ->
     e w' = e2 /\ conn w' = mkConn false (wire (conn w) ++ [msg]) /\
     StatusChan w' = StatusChan w) /\
  (IsConnected (e w) = true -> broken (conn w) = true ->
     e w' = set_IsConnected false e2 /\ conn w' = conn w /\
     StatusChan w' = StatusChan w ++ ["lost connection!"]).
Proof.
  run. cbn.
  destruct (crdt.Insert _ _ _ _ _) as [[d c] [text err]]. cbn.
  destruct err; cbn;
    destruct (IsConnected (e w)); cbn;
    destruct (broken (conn w)); cbn;
    rewrite <- ?app_assoc; cbn;
    repeat split; intros; try discriminate; auto.
Qed.

Lemma perform_insert_sent (ev : termbox.Event) (w : World) :
  let ch := string_of_rune (termbox.Ch ev) in
  let w' := exec (perform OperationInsert ev) w in
  sentBetween w w' =
  if IsConnected (e w) && negb (broken (conn w))
  then [operationMessage "insert" (Cursor (e w')) ch] else [].
Proof.
  pose proof (perform_insert ev w) as H. cbv zeta in *.
  destruct H as [_ [_ [_ [_ [Hn [Hok Hbad]]]]]]. unfold sentBetween.
  destruct (IsConnected (e w)); [destruct (broken (conn w))|]; cbn.
  - destruct (Hbad eq_refl eq_refl) as [_ [-> _]]. apply skipn_all.
  - destruct (Hok eq_refl eq_refl) as [-> [-> _]]. cbn. apply skipn_app_exact.
  - destruct (Hn eq_refl) as [_ [-> _]]. apply skipn_all.
Qed.

Lemma Insert_error_unchanged (d : crdt.Document) (st cnt p : Z) (v : string) (er : error) :
  snd (snd (crdt.Insert d st cnt p v)) = Some er ->
  crdt.Insert d st cnt p v = (d, cnt, (crdt.Content d, Some er)).
Proof.
  unfold crdt.Insert.
  destruct (crdt.LocalInsert d (p - 1) v st cnt) as [er'|[d' r]]; cbn.
  - now intros [= ->].
  - discriminate.
Qed.

(** C7 (as amended): a local insert that raises an error leaves the document
    and the insert counter as they were and writes the error to the log; the
    only status notification the step can add is the loss of the
    connection. *)
Theorem C7_failed_insert_is_logged (ev : termbox.Event) (w : World) (er : error) :
  snd (snd (crdt.Insert (doc w) (SiteID w) (Counter w)
              (add64 (Cursor (e w)) 1)
              (string_of_rune (termbox.Ch ev)))) = Some er ->
  let w' := exec (perform OperationInsert ev) w in
  doc w' = doc w /\ Counter w' = Counter w /\
  Log w' = Log w ++ [(InfoLevel, "LOCAL INSERT"); (ErrorLevel, "CRDT error")] /\
  (StatusChan w' = StatusChan w \/
   StatusChan w' = StatusChan w ++ ["lost connection!"]).
Proof.
  intros Her. pose proof (perform_insert ev w) as H. cbv zeta in *.
  rewrite (Insert_error_unchanged _ _ _ _ _ _ Her) in H. cbn in H.
  destruct H as [Hd [_ [Hc [Hl [Hn [Hok Hbad]]]]]].
  repeat (split; [assumption|]).
  destruct (IsConnected (e w)); [destruct (broken (conn w))|].
  - destruct (Hbad eq_refl eq_refl) as [_ [_ ->]]. auto.
  - destruct (Hok eq_refl eq_refl) as [_ [_ ->]]. auto.
  - destruct (Hn eq_refl) as [_ [_ ->]]. auto.
Qed.

(** C6 (as amended): on a document with no visible character a local delete
    leaves the document and its Content() as they were and reports no error:
    nothing is logged as an error, the only status notification the step can
    add is the loss of the connection, and the delete message is still
    written when the client is connected. *)
Theorem C6_delete_on_empty_text (ev : termbox.Event) (w : World) :
  crdt.visibleLength (doc w) = 0 ->
  let w' := exec (perform OperationDelete ev) w in
  doc w' = doc w /\
  crdt.Content (doc w') = crdt.Content (doc w) /\
  filter isError (Log w') = filter isError (Log w) /\
  (StatusChan w' = StatusChan w \/
   StatusChan w' = StatusChan w ++ ["lost connection!"]) /\
  sentBetween w w' =
    if IsConnected (e w) && negb (broken (conn w))
    then [operationMessage "delete" (deletePosition (Cursor (e w))) ""] else [].
Proof.
  intros Hn0. pose proof (perform_delete ev w) as H.
  pose proof (perform_delete_sent ev w) as Hs. cbv zeta in *.
  rewrite DocFacts.Delete_out_of_range in H by lia. cbn in H.
  destruct H as [Hd [_ [_ [Hl [Hn [Hok Hbad]]]]]].
  rewrite Hd, Hl, filter_app. cbn. rewrite app_nil_r.
  repeat (split; [reflexivity|]). split; [|exact Hs].
  destruct (IsConnected (e w)); [destruct (broken (conn w))|].
  - destruct (Hbad eq_refl eq_refl) as [_ [_ ->]]. auto.
  - destruct (Hok eq_refl eq_refl) as [_ [_ ->]]. auto.
  - destruct (Hn eq_refl) as [_ [_ ->]]. auto.
Qed.

(** C2 (as amended): the position token of every message a local insert or
    delete writes is the editor's cursor index: for an insert the cursor
    after the move, for a delete the cursor the document delete was given.
    [handleMsg] hands a received position to the same index-based
    [doc.Insert] and [doc.Delete], with the receiving replica's own site and
    counter. *)
Theorem C2_position_token_is_cursor_index (ev : termbox.Event) (w : World) :
  let wi := exec (perform OperationInsert ev) w in
  let wd := exec (perform OperationDelete ev) w in
  let live := IsConnected (e w) && negb (broken (conn w)) in
  sentBetween w wi =
    (if live
     then [operationMessage "insert" (Cursor (e wi)) (string_of_rune (termbox.Ch ev))]
     else []) /\
  sentBetween w wd =
    (if live
     then [operationMessage "delete" (deletePosition (Cursor (e w))) ""]
     else []) /\
  doc wd = fst (crdt.Delete (doc w) (deletePosition (Cursor (e w)))) /\
  (forall m : commons.Message,
     isOperation m = true -> commons.OpType (commons.Op m) = "insert" ->
     doc (exec (handle m) w) =
       fst (fst (crdt.Insert (doc w) (SiteID w) (Counter w)
                   (commons.Position (commons.Op m))
                   (commons.Value (commons.Op m))))) /\
  (forall m : commons.Message,
     isOperation m = true -> commons.OpType (commons.Op m) = "delete" ->
     doc (exec (handle m) w) =
       fst (crdt.Delete (doc w) (commons.Position (commons.Op m)))).
Proof.
  cbv zeta.
  split; [|split; [|split; [|split]]].
  - apply perform_insert_sent.
  - apply perform_delete_sent.
  - apply (perform_delete ev w).
  - intros m Hm Ho. now destruct (handleMsg_insert m w Hm Ho) as [-> _].
  - intros m Hm Ho. now destruct (handleMsg_delete m w Hm Ho) as [-> _].
Qed.

(** ** Loading a file *)

(** C5: when loading the file fails, Ctrl+L returns the error to its caller,
    sends the status notification and leaves the document, the editor, the
    site, the counter and the connection as they were. *)
Theorem C5_failed_load_keeps_document
    (ev : termbox.Event) (w : World) (nd : crdt.Document) (er : error) :
  termbox.EvType ev = termbox.EventKey ->
  termbox.Key_ ev = termbox.KeyCtrlL ->
  fileName w <> "" ->
  Load (fileName w) = (nd, Some er) ->
  fst (onKey ev w) = Some er /\
  doc (exec (onKey ev) w) = doc w /\
  e (exec (onKey ev) w) = e w /\
  SiteID (exec (onKey ev) w) = SiteID w /\
  Counter (exec (onKey ev) w) = Counter w /\
  conn (exec (onKey ev) w) = conn w /\
  StatusChan (exec (onKey ev) w) =
    StatusChan w ++ [("Failed to load " ++ fileName w)%string].
Proof.
  intros Ht Hk Hf Hl. run. rewrite Ht, Hk. cbn.
  apply String.eqb_neq in Hf. rewrite Hf. cbn. rewrite Hl. cbn.
  repeat split.
Qed.

(** ** The site id *)

Lemma keepsSite_ret {A : Type} (a : A) : keepsSite (ret a).
Proof. now intros w. Qed.

Lemma keepsSite_bind {A B : Type} (m : M A) (k : A -> M B) :
  keepsSite m -> (forall a, keepsSite (k a)) -> keepsSite (bind m k).
Proof.
  intros Hm Hk w. unfold bind. specialize (Hm w).
  destruct (m w) as [a w1]. cbn in Hm. now rewrite Hk.
Qed.

Lemma keepsSite_gets {A : Type} (f : World -> A) : keepsSite (gets f).
Proof. now intros w. Qed.

Lemma keepsSite_modify (f : World -> World) :
  (forall w, SiteID (f w) = SiteID w) -> keepsSite (modify f).
Proof. intros H w. apply H. Qed.

Lemma keepsSite_when (b : bool) (m : M unit) :
  keepsSite m -> keepsSite (when b m).
Proof. destruct b; auto. intros _. apply keepsSite_ret. Qed.

Lemma keepsSite_write (m : commons.Message) : keepsSite (conn_WriteJSON m).
Proof. intros w. unfold conn_WriteJSON. now destruct (broken (conn w)). Qed.

Lemma keepsSite_Insert (p : Z) (v : string) : keepsSite (doc_Insert p v).
Proof.
  intros w. unfold doc_Insert.
  now destruct (crdt.Insert _ _ _ _ _) as [[d c] r].
Qed.

Lemma keepsSite_Delete (del : crdt.Document -> Z -> crdt.Document * string)
    (p : Z) : keepsSite (doc_Delete del p).
Proof.
  intros w. unfold doc_Delete. now destruct (del _ _) as [d t].
Qed.

Ltac keeps :=
  repeat first
    [ apply keepsSite_ret
    | apply keepsSite_gets
    | apply keepsSite_write
    | apply keepsSite_Insert
    | apply keepsSite_Delete
    | apply keepsSite_when
    | apply keepsSite_modify; intros; reflexivity
    | apply keepsSite_bind; [|intros]
    | match goal with
      | |- keepsSite (if ?b then _ else _) => destruct b
      | |- keepsSite (match ?x with _ => _ end) => destruct x
      | |- keepsSite (let (_, _) := ?x in _) => destruct x
      end ].

Lemma keepsSite_perform (opType : Z) (ev : termbox.Event) :
  keepsSite (perform opType ev).
Proof.
  unfold performOperation, logger_Infof, logger_Errorf, sendStatus,
    e_SetText, e_SetX, e_MoveCursor.
  keeps.
Qed.

Lemma keepsSite_repeatM (n : nat) (m : M unit) :
  keepsSite m -> keepsSite (repeatM n m).
Proof.
  intros H. induction n; cbn [repeatM]; keeps; auto.
Qed.

Lemma keepsSite_onKey (ev : termbox.Event) : keepsSite (onKey ev).
Proof.
  unfold handleTermboxEvent, logger_Infof, logger_Errorf, sendStatus,
    e_SetText, e_SetX, e_MoveCursor, e_SendDraw.
  keeps;
    try (apply keepsSite_repeatM); try (apply keepsSite_perform); keeps.
Qed.

(** C8 (as amended): the site id changes only through a site-assignment
    message.  No key event and no message of another kind changes it; a
    site-assignment message whose text [strconv.Atoi] reads as a number, the
    first or a later one, sets it to that number. *)
Theorem C8_site_changes_only_by_site_message :
  (forall (ev : termbox.Event) (w : World),
     SiteID (exec (onKey ev) w) = SiteID w) /\
  (forall (m : commons.Message) (w : World),
     commons.MsgType m <> commons.SiteIDMessage ->
     SiteID (exec (handle m) w) = SiteID w) /\
  (forall (m : commons.Message) (w : World) (n : Z),
     commons.MsgType m = commons.SiteIDMessage ->
     strconv.Atoi (commons.Text m) = (n, None) ->
     SiteID (exec (handle m) w) = n).
Proof.
  split; [|split].
  - intros ev w. apply keepsSite_onKey.
  - intros m w Hm. revert w. change (keepsSite (handle m)).
    unfold handleMsg, logger_Infof, logger_Errorf, sendStatus, printDoc,
      e_SetText, e_SetX, e_MoveCursor, e_SendDraw.
    destruct (commons.MsgType m); try congruence; keeps.
  - intros m w n Hm Ha. run. rewrite Hm, Ha. reflexivity.
Qed.

(** ** Remote operations on the visible text *)

Lemma applyOp_outOfRange (op : commons.Operation) (vv : list string) :
  outOfRange op (Z.of_nat (List.length vv)) = true -> applyOp op vv = vv.
Proof.
  unfold outOfRange, applyOp.
  destruct (String.eqb (commons.OpType op) "insert").
  - intros H. apply orb_prop in H.
    destruct (Z.leb_spec 1 (commons.Position op)); cbn; auto.
    destruct (Z.leb_spec (commons.Position op) (Z.of_nat (List.length vv) + 1)); auto.
    destruct H as [H|H]; apply Z.ltb_lt in H; lia.
  - destruct (String.eqb (commons.OpType op) "delete"); auto.
    intros H. apply orb_prop in H.
    destruct (Z.leb_spec 1 (commons.Position op)); cbn; auto.
    destruct (Z.leb_spec (commons.Position op) (Z.of_nat (List.length vv))); auto.
    destruct H as [H|H]; apply Z.ltb_lt in H; lia.
Qed.

Lemma length_insertAt {A : Type} (i : nat) (v : A) (l : list A) :
  List.length (insertAt i v l) = S (List.length l).
Proof.
  unfold insertAt. rewrite length_app. cbn.
  rewrite Nat.add_succ_r, <- length_app, firstn_skipn. reflexivity.
Qed.

Lemma applyOp_insert_in_range (op : commons.Operation) (vv : list string) :
  commons.OpType op = "insert" ->
  1 <= commons.Position op <= Z.of_nat (List.length vv) + 1 ->
  applyOp op vv =
    insertAt (Z.to_nat (commons.Position op - 1)) (commons.Value op) vv.
Proof.
  intros Ho Hp. unfold applyOp. rewrite Ho. cbn.
  destruct (Z.leb_spec 1 (commons.Position op)); [|lia].
  destruct (Z.leb_spec (commons.Position op) (Z.of_nat (List.length vv) + 1)); [|lia].
  reflexivity.
Qed.

(** C1 (as amended): two replicas that start from the empty Document and
    handle the same operation records in the same order hold identical
    Content(), whatever their site ids, counters, editors and
    connections. *)
Theorem C1_same_order_same_content
    (ms : list commons.Message) (w1 w2 : World) :
  forallb isOperation ms = true ->
  doc w1 = crdt.New -> doc w2 = crdt.New ->
  crdt.Content (doc (exec (handleMsgs crdt.Delete moveCursor ms) w1)) =
  crdt.Content (doc (exec (handleMsgs crdt.Delete moveCursor ms) w2)).
Proof.
  intros Hop E1 E2. unfold crdt.Content. f_equal.
  apply handleMsgs_visibleValues; auto.
  - rewrite E1. apply DocFacts.New_WF.
  - rewrite E2. apply DocFacts.New_WF.
  - now rewrite E1, E2.
Qed.

(** C3 (as amended): on a well-formed document, handling the same operation
    record twice yields the same Content() as handling it once whenever the
    record falls outside the visible bounds of the document reached after
    the first time (a record that is out of range, or a delete of the last
    visible character); an insert within the visible bounds is applied
    again, and its Value appears twice. *)
Theorem C3_twice_is_once_when_out_of_range (m : commons.Message) (w : World) :
  isOperation m = true -> crdt.WF (doc w) ->
  let once := exec (handle m) w in
  let twice := exec (handle m) once in
  let p := commons.Position (commons.Op m) in
  (outOfRange (commons.Op m) (crdt.visibleLength (doc once)) = true ->
   crdt.Content (doc twice) = crdt.Content (doc once)) /\
  (commons.OpType (commons.Op m) = "insert" ->
   1 <= p <= crdt.visibleLength (doc w) + 1 ->
   crdt.visibleValues (doc twice) =
     insertAt (Z.to_nat (p - 1)) (commons.Value (commons.Op m))
       (insertAt (Z.to_nat (p - 1)) (commons.Value (commons.Op m))
          (crdt.visibleValues (doc w)))).
Proof.
  intros Hm Hwf. cbv zeta.
  destruct (handleMsg_applyOp m w Hm Hwf) as [W1 V1].
  destruct (handleMsg_applyOp m _ Hm W1) as [W2 V2].
  split.
  - intros Hout. unfold crdt.Content. f_equal. rewrite V2.
    apply applyOp_outOfRange. now rewrite DocFacts.visibleValues_length.
  - intros Ho Hp. rewrite V2, V1.
    rewrite <- DocFacts.visibleValues_length in Hp.
    rewrite (applyOp_insert_in_range _ (crdt.visibleValues (doc w))) by auto.
    rewrite applyOp_insert_in_range; auto.
    rewrite length_insertAt. lia.
Qed.

(** C4 (as amended): on a well-formed document, handling A then B edits the
    visible values by A and then by B at their visible positions, and
    handling B then A by B and then by A.  The two orders agree when B falls
    outside the visible bounds both before and after A; two inserts at one
    position within the bounds leave their values in opposite orders. *)
Theorem C4_order_of_two_records (A B : commons.Message) (w : World) :
  isOperation A = true -> isOperation B = true -> crdt.WF (doc w) ->
  let ab := exec (handle B) (exec (handle A) w) in
  let ba := exec (handle A) (exec (handle B) w) in
  let vv := crdt.visibleValues (doc w) in
  let p := commons.Position (commons.Op A) in
  (crdt.visibleValues (doc ab) = applyOp (commons.Op B) (applyOp (commons.Op A) vv) /\
   crdt.visibleValues (doc ba) = applyOp (commons.Op A) (applyOp (commons.Op B) vv)) /\
  (outOfRange (commons.Op B) (crdt.visibleLength (doc w)) = true ->
   outOfRange (commons.Op B) (crdt.visibleLength (doc (exec (handle A) w))) = true ->
   crdt.Content (doc ab) = crdt.Content (doc ba)) /\
  (commons.OpType (commons.Op A) = "insert" ->
   commons.OpType (commons.Op B) = "insert" ->
   commons.Position (commons.Op B) = p ->
   1 <= p <= crdt.visibleLength (doc w) + 1 ->
   crdt.visibleValues (doc ab) =
     insertAt (Z.to_nat (p - 1)) (commons.Value (commons.Op B))
       (insertAt (Z.to_nat (p - 1)) (commons.Value (commons.Op A)) vv) /\
   crdt.visibleValues (doc ba) =
     insertAt (Z.to_nat (p - 1)) (commons.Value (commons.Op A))
       (insertAt (Z.to_nat (p - 1)) (commons.Value (commons.Op B)) vv)).
Proof.
  intros HA HB Hwf. cbv zeta.
  destruct (handleMsg_applyOp A w HA Hwf) as [WA VA].
  destruct (handleMsg_applyOp B w HB Hwf) as [WB VB].
  destruct (handleMsg_applyOp B _ HB WA) as [WAB VAB].
  destruct (handleMsg_applyOp A _ HA WB) as [WBA VBA].
  assert (Hab : crdt.visibleValues (doc (exec (handle B) (exec (handle A) w))) =
                applyOp (commons.Op B) (applyOp (commons.Op A) (crdt.visibleValues (doc w))))
    by now rewrite VAB, VA.
  assert (Hba : crdt.visibleValues (doc (exec (handle A) (exec (handle B) w))) =
                applyOp (commons.Op A) (applyOp (commons.Op B) (crdt.visibleValues (doc w))))
    by now rewrite VBA, VB.
  split; [now split|]. split.
  - intros H1 H2. unfold crdt.Content. f_equal. rewrite Hab, Hba.
    rewrite <- DocFacts.visibleValues_length in H1, H2.
    rewrite (applyOp_outOfRange (commons.Op B) (crdt.visibleValues (doc w))) by auto.
    rewrite <- VA. now apply applyOp_outOfRange.
  - intros HoA HoB HpB Hp. rewrite Hab, Hba.
    rewrite <- DocFacts.visibleValues_length in Hp.
    rewrite (applyOp_insert_in_range (commons.Op A) (crdt.visibleValues (doc w))) by auto.
    rewrite (applyOp_insert_in_range (commons.Op B) (crdt.visibleValues (doc w)))
      by (auto; rewrite HpB; auto).
    rewrite !applyOp_insert_in_range; auto; rewrite ?HpB, ?length_insertAt; auto; lia.
Qed.

End EngineFacts.

(* ================================================================== *)
(** * Runs of the reference replica *)

(** C1, counterexample: site 1 types "hi" and site 2 types "!", each on its
    own empty copy; after each has handled the other's records, site 1 holds
    "!hi" and site 2 holds "hi!". *)
Lemma C1_counterexample :
  let r1 := typed 1 [104; 105] in
  let r2 := typed 2 [33] in
  let r1' := exec (handleMsgs crdt.Delete clampMove (outbox r2)) r1 in
  let r2' := exec (handleMsgs crdt.Delete clampMove (outbox r1)) r2 in
  crdt.Content (doc r1) = "hi" /\ crdt.Content (doc r2) = "!" /\
  crdt.Content (doc r1') = "!hi" /\ crdt.Content (doc r2') = "hi!" /\
  crdt.Content (doc r1') <> crdt.Content (doc r2').
Proof.
  vm_compute. repeat split; discriminate.
Qed.

(** Sites 2 and 3 handle the two records of site 1, in the order it wrote
    them. *)
Lemma C1_witness :
  let ms := outbox (typed 1 [104; 105]) in
  forallb isOperation ms = true /\
  doc (replica 2) = crdt.New /\ doc (replica 3) = crdt.New /\
  crdt.Content (doc (exec (handleMsgs crdt.Delete clampMove ms) (replica 2))) =
  crdt.Content (doc (exec (handleMsgs crdt.Delete clampMove ms) (replica 3))).
Proof.
  cbv zeta.
  assert (H : forallb isOperation (outbox (typed 1 [104; 105])) = true)
    by (vm_compute; reflexivity).
  split; [exact H|]. split; [reflexivity|]. split; [reflexivity|].
  exact (C1_same_order_same_content clampMove
           (outbox (typed 1 [104; 105])) (replica 2) (replica 3)
           H eq_refl eq_refl).
Defined.

(** C2, counterexample: no reading of the position token gives the
    identifier of the inserted character.  Sites 1 and 2 each type "a" on an
    empty document: they write the same message, position 1, and mint
    different identifiers. *)
Lemma C2_counterexample :
  ~ (exists tok : commons.Operation -> crdt.Identifier,
       forall (w : World) (ev : termbox.Event)
              (m : commons.Message) (c : crdt.Character),
         let w' := exec (performOperation crdt.Delete clampMove OperationInsert ev) w in
         In m (sentBetween w w') -> In c (mintedBetween w w') ->
         tok (commons.Op m) = crdt.identifier c).
Proof.
  intros [tok H].
  pose proof (H (replica 1) (keyCh 97) (operationMessage "insert" 1 "a")
                (crdt.mkCharacter [(1, 1)] "a" 1 0 false)) as H1.
  pose proof (H (replica 2) (keyCh 97) (operationMessage "insert" 1 "a")
                (crdt.mkCharacter [(1, 2)] "a" 2 0 false)) as H2.
  cbv zeta in H1, H2.
  assert (E1 : tok (commons.Op (operationMessage "insert" 1 "a")) = [(1, 1)]).
  { apply H1; vm_compute; left; reflexivity. }
  assert (E2 : tok (commons.Op (operationMessage "insert" 1 "a")) = [(1, 2)]).
  { apply H2; vm_compute; left; reflexivity. }
  rewrite E1 in E2. discriminate.
Qed.

(** C3, counterexample: the record "insert a at 1" handled once on the empty
    document gives "a", handled twice gives "aa". *)
Lemma C3_counterexample :
  let m := operationMessage "insert" 1 "a" in
  let once := exec (handleMsg crdt.Delete clampMove m) (replica 2) in
  let twice := exec (handleMsg crdt.Delete clampMove m) once in
  crdt.Content (doc once) = "a" /\ crdt.Content (doc twice) = "aa" /\
  crdt.Content (doc twice) <> crdt.Content (doc once).
Proof.
  vm_compute. repeat split; discriminate.
Qed.

(** The record "delete at 2" handled twice on "hi": the second time there
    is no second character left. *)
Lemma C3_witness :
  let m := operationMessage "delete" 2 "" in
  let w := typed 1 [104; 105] in
  let once := exec (handleMsg crdt.Delete clampMove m) w in
  let twice := exec (handleMsg crdt.Delete clampMove m) once in
  isOperation m = true /\ crdt.WF (doc w) /\
  outOfRange (commons.Op m) (crdt.visibleLength (doc once)) = true /\
  crdt.Content (doc twice) = crdt.Content (doc once).
Proof.
  cbv zeta.
  assert (W : crdt.WF (doc (typed 1 [104; 105])))
    by (vm_compute; split; repeat constructor; discriminate).
  split; [reflexivity|]. split; [exact W|]. split; [reflexivity|].
  exact (proj1 (C3_twice_is_once_when_out_of_range clampMove
                  (operationMessage "delete" 2 "") (typed 1 [104; 105])
                  eq_refl W) eq_refl).
Defined.

(** C4, counterexample: site 1 types "a" and site 2 types "b", each on its
    own empty copy.  A third replica that handles the two records holds "ba"
    in one order and "ab" in the other. *)
Lemma C4_counterexample :
  exists A B : commons.Message,
    outbox (typed 1 [97]) = [A] /\ outbox (typed 2 [98]) = [B] /\
    let ab := exec (handleMsg crdt.Delete clampMove B) (exec (handleMsg crdt.Delete clampMove A) (replica 3)) in
    let ba := exec (handleMsg crdt.Delete clampMove A) (exec (handleMsg crdt.Delete clampMove B) (replica 3)) in
    crdt.Content (doc ab) = "ba" /\ crdt.Content (doc ba) = "ab" /\
    crdt.Content (doc ab) <> crdt.Content (doc ba).
Proof.
  exists (operationMessage "insert" 1 "a"), (operationMessage "insert" 1 "b").
  vm_compute. repeat split; discriminate.
Qed.

(** "insert a at 1" and "insert b at 9" on the empty document: the second
    is out of range before and after the first. *)
Lemma C4_witness :
  let A := operationMessage "insert" 1 "a" in
  let B := operationMessage "insert" 9 "b" in
  let w := replica 3 in
  let ab := exec (handleMsg crdt.Delete clampMove B) (exec (handleMsg crdt.Delete clampMove A) w) in
  let ba := exec (handleMsg crdt.Delete clampMove A) (exec (handleMsg crdt.Delete clampMove B) w) in
  isOperation A = true /\ isOperation B = true /\ crdt.WF (doc w) /\
  crdt.Content (doc ab) = crdt.Content (doc ba).
Proof.
  cbv zeta.
  split; [reflexivity|]. split; [reflexivity|].
  split; [exact DocFacts.New_WF|].
  exact (proj1 (proj2 (C4_order_of_two_records clampMove
                         (operationMessage "insert" 1 "a")
                         (operationMessage "insert" 9 "b") (replica 3)
                         eq_refl eq_refl DocFacts.New_WF))
           eq_refl eq_refl).
Defined.

(** Ctrl+L on a replica holding "hi", with a file name and a loader that
    rejects the file. *)
Lemma C5_witness :
  let w := set_fileName "notes.txt" (typed 1 [104; 105]) in
  let r := handleTermboxEvent crdt.Delete clampMove len rejectLoad okSave
             (keyOf termbox.KeyCtrlL) w in
  fileName w <> "" /\
  rejectLoad (fileName w) = (crdt.New, Some CorruptStateError) /\
  fst r = Some CorruptStateError /\ doc (snd r) = doc w.
Proof.
  assert (F : fileName (set_fileName "notes.txt" (typed 1 [104; 105])) <> "")
    by discriminate.
  pose proof (C5_failed_load_keeps_document clampMove len rejectLoad okSave
                (keyOf termbox.KeyCtrlL)
                (set_fileName "notes.txt" (typed 1 [104; 105]))
                crdt.New CorruptStateError eq_refl eq_refl F eq_refl) as H.
  cbv zeta. split; [exact F|]. split; [reflexivity|]. split; apply H.
Defined.

(** C6, counterexample: a backspace on the empty document does not fail.
    Nothing is logged as an error, no status notification is sent, and the
    delete message at position 0 is written to the connection. *)
Lemma C6_counterexample :
  let w := replica 1 in
  let w' := exec (performOperation crdt.Delete clampMove OperationDelete backspace) w in
  crdt.visibleLength (doc w) = 0 /\
  filter isError (Log w') = [] /\ StatusChan w' = [] /\
  outbox w' = [operationMessage "delete" 0 ""].
Proof.
  vm_compute. repeat split.
Qed.

(** A backspace on the empty document. *)
Lemma C6_witness :
  let w := replica 1 in
  let w' := exec (performOperation crdt.Delete clampMove OperationDelete backspace) w in
  crdt.visibleLength (doc w) = 0 /\ doc w' = doc w.
Proof.
  split; [reflexivity|].
  exact (proj1 (C6_delete_on_empty_text clampMove backspace (replica 1) eq_refl)).
Defined.

(** C7, counterexample: with the cursor beyond the text, typing "x" raises
    IndexOutOfRange.  The document is unchanged, but no status notification
    is sent and the insert message is still written to the connection. *)
Lemma C7_counterexample :
  let w := resynced in
  let w' := exec (performOperation crdt.Delete clampMove OperationInsert (keyCh 120)) w in
  Cursor (e w) = 3 /\ crdt.Content (doc w) = "" /\
  snd (snd (crdt.Insert (doc w) (SiteID w) (Counter w) (add64 (Cursor (e w)) 1) "x")) =
    Some IndexOutOfRange /\
  doc w' = doc w /\
  StatusChan w' = StatusChan w /\
  sentBetween w w' = [operationMessage "insert" 0 "x"].
Proof.
  vm_compute. repeat split.
Qed.

(** Typing "x" with the cursor beyond the text. *)
Lemma C7_witness :
  let w := resynced in
  let w' := exec (performOperation crdt.Delete clampMove OperationInsert (keyCh 120)) w in
  snd (snd (crdt.Insert (doc w) (SiteID w) (Counter w)
              (add64 (Cursor (e w)) 1) (string_of_rune 120))) =
    Some IndexOutOfRange /\
  doc w' = doc w.
Proof.
  split; [reflexivity|].
  exact (proj1 (C7_failed_insert_is_logged clampMove (keyCh 120) resynced
                  IndexOutOfRange eq_refl)).
Defined.

(** C8, counterexample: a second site-assignment message changes the site
    id the first one assigned. *)
Lemma C8_counterexample :
  let w1 := exec (handleMsg crdt.Delete clampMove (siteMessage "1")) (replica 0) in
  let w2 := exec (handleMsg crdt.Delete clampMove (siteMessage "2")) w1 in
  SiteID w1 = 1 /\ SiteID w2 = 2 /\ SiteID w2 <> SiteID w1.
Proof.
  vm_compute. repeat split; discriminate.
Qed.

(** A replica that was assigned site 1 and typed "hi" receives the
    site-assignment message "-20": the text reads as a number, and the site
    id becomes -20. *)
Lemma C8_witness :
  let m := siteMessage "-20" in
  let w := exec (handleMsg crdt.Delete clampMove (siteMessage "1")) (typed 0 [104; 105]) in
  commons.MsgType m = commons.SiteIDMessage /\
  strconv.Atoi (commons.Text m) = (-20, None) /\
  SiteID w = 1 /\
  SiteID (exec (handleMsg crdt.Delete clampMove m) w) = -20.
Proof.
  split; [reflexivity|]. split; [reflexivity|].
  split; [vm_compute; reflexivity|].
  exact (proj2 (proj2 (C8_site_changes_only_by_site_message
                         clampMove len rejectLoad okSave))
           (siteMessage "-20")
           (exec (handleMsg crdt.Delete clampMove (siteMessage "1"))
              (typed 0 [104; 105]))
           (-20) eq_refl eq_refl).
Defined.



(** A backspace with the cursor at 0 in front of "hi", on a connected
    replica: the document is the one [Delete(0)] returns, and the record
    "delete at 0" is written. *)
Lemma C10_witness :
  let w := afterKeys [keyOf termbox.KeyHome] (typed 1 [104; 105]) in
  let w' := exec (performOperation crdt.Delete clampMove OperationDelete backspace) w in
  - 2 ^ 63 < Cursor (e w) <= 0 /\
  doc w' = fst (crdt.Delete (doc w) 0) /\
  Text (e w') = snd (crdt.Delete (doc w) 0) /\
  wire (conn w') = wire (conn w) ++ [operationMessage "delete" 0 ""].
Proof.
  assert (H : - 2 ^ 63 <
              Cursor (e (afterKeys [keyOf termbox.KeyHome] (typed 1 [104; 105])))
              <= 0)
    by (vm_compute; split; [reflexivity | discriminate]).
  assert (Hc : IsConnected
                 (e (afterKeys [keyOf termbox.KeyHome] (typed 1 [104; 105]))) = true)
    by (vm_compute; reflexivity).
  assert (Hb : broken
                 (conn (afterKeys [keyOf termbox.KeyHome] (typed 1 [104; 105]))) = false)
    by (vm_compute; reflexivity).
  pose proof (C10_delete_at_cursor_zero clampMove crdt.Delete backspace
                (afterKeys [keyOf termbox.KeyHome] (typed 1 [104; 105])) H) as T.
  split; [exact H|]. split; [apply T|]. split; [apply T|].
  exact (proj2 (proj2 (proj2 (proj2 T)) Hc) Hb).
Defined.

(* ================================================================== *)
(** * Further facts about the handlers *)

Section Respect.

Variables (R : World -> World -> Prop).
Hypothesis R_refl : forall w, R w w.
Hypothesis R_trans : forall a b c, R a b -> R b c -> R a c.

Lemma respects_ret {A : Type} (a : A) : respects R (ret a).
Proof. intros w. apply R_refl. Qed.

Lemma respects_gets {A : Type} (f : World -> A) : respects R (gets f).
Proof. intros w. apply R_refl. Qed.

Lemma respects_bind {A B : Type} (m : M A) (k : A -> M B) :
  respects R m -> (forall a, respects R (k a)) -> respects R (bind m k).
Proof.
  intros Hm Hk w. unfold bind. specialize (Hm w).
  destruct (m w) as [a w1]. cbn in Hm. eapply R_trans; [exact Hm|apply Hk].
Qed.

Lemma respects_modify (f : World -> World) :
  (forall w, R w (f w)) -> respects R (modify f).
Proof. intros H w. apply H. Qed.

Lemma respects_when (b : bool) (m : M unit) :
  respects R m -> respects R (when b m).
Proof. destruct b; [now auto|]. intros _. apply respects_ret. Qed.

Lemma respects_write (m : commons.Message) :
  (forall c w, R w (set_conn c w)) -> respects R (conn_WriteJSON m).
Proof.
  intros H w. unfold conn_WriteJSON. destruct (broken (conn w)); cbn; auto.
Qed.

Lemma respects_Insert (p : Z) (v : string) :
  (forall d c w, R w (set_Counter c (set_doc d w))) ->
  respects R (doc_Insert p v).
Proof.
  intros H w. unfold doc_Insert.
  destruct (crdt.Insert _ _ _ _ _) as [[d c] r]. apply H.
Qed.

Lemma respects_Delete (del : crdt.Document -> Z -> crdt.Document * string)
    (p : Z) :
  (forall d w, R w (set_doc d w)) -> respects R (doc_Delete del p).
Proof.
  intros H w. unfold doc_Delete.
  destruct (del _ _) as [d t]. apply H.
Qed.

Lemma respects_repeatM (n : nat) (m : M unit) :
  respects R m -> respects R (repeatM n m).
Proof.
  intros H. induction n; cbn [repeatM].
  - apply respects_ret.
  - apply respects_bind; auto.
Qed.

End Respect.

(** Breaks a handler down to its steps and settles each: [refl] and [trans]
    prove the relation reflexive and transitive, [step] settles one state
    update. *)
Ltac respect refl trans step :=
  repeat first
    [ apply (respects_ret _ refl)
    | apply (respects_gets _ refl)
    | apply (respects_when _ refl)
    | apply respects_write; intros; cbn; solve [step]
    | apply respects_Insert; intros; cbn; solve [step]
    | apply respects_Delete; intros; cbn; solve [step]
    | apply respects_modify; intros; cbn; solve [step]
    | apply (respects_bind _ trans); [|intros]
    | match goal with
      | |- respects _ (if ?b then _ else _) => destruct b
      | |- respects _ (match ?x with _ => _ end) => destruct x
      | |- respects _ (let (_, _) := ?x in _) => destruct x
      end ].

Ltac unfold_steps :=
  unfold logger_Infof, logger_Errorf, sendStatus, printDoc,
    e_SetText, e_SetX, e_MoveCursor, e_SendDraw.

Lemma notReconnected_refl (w : World) : notReconnected w w.
Proof. now intros H. Qed.

Lemma notReconnected_trans (a b c : World) :
  notReconnected a b -> notReconnected b c -> notReconnected a c.
Proof. unfold notReconnected. auto. Qed.

Section EngineExtras.

Variable moveCursor : Editor -> Z -> Z -> Z.
Variable lenText : string -> Z.
Variable Load : string -> crdt.Document * option error.
Variable Save : string -> crdt.Document -> option error.

Local Abbreviation perform := (performOperation crdt.Delete moveCursor).
Local Abbreviation handle := (handleMsg crdt.Delete moveCursor).
Local Abbreviation onKey :=
  (handleTermboxEvent crdt.Delete moveCursor lenText Load Save).

(** ** The connection flag *)

Lemma perform_notReconnected (opType : Z) (ev : termbox.Event) :
  respects notReconnected (perform opType ev).
Proof.
  unfold performOperation. unfold_steps.
  respect notReconnected_refl notReconnected_trans
    ltac:(unfold notReconnected; cbn; first [now auto | intros; discriminate]).
Qed.

(** X14: No key event and no message turns [e.IsConnected] on: once the engine
    has marked the connection lost, it stays marked lost. *)
Theorem engine_never_reconnects :
  (forall (ev : termbox.Event) (w : World),
     IsConnected (e (exec (onKey ev) w)) = true -> IsConnected (e w) = true) /\
  (forall (m : commons.Message) (w : World),
     IsConnected (e (exec (handle m) w)) = IsConnected (e w)).
Proof.
  split.
  - intros ev. change (respects notReconnected (onKey ev)).
    unfold handleTermboxEvent. unfold_steps.
    respect notReconnected_refl notReconnected_trans
      ltac:(unfold notReconnected; cbn; first [now auto | intros; discriminate]);
      try (apply (respects_repeatM _ notReconnected_refl notReconnected_trans));
      try (apply perform_notReconnected);
      respect notReconnected_refl notReconnected_trans
        ltac:(unfold notReconnected; cbn; first [now auto | intros; discriminate]).
  - intros m.
    change (respects (fun w w' => IsConnected (e w') = IsConnected (e w)) (handle m)).
    unfold handleMsg. unfold_steps.
    respect (fun w : World => eq_refl (IsConnected (e w)))
            (fun (a b c : World)
                 (H1 : IsConnected (e b) = IsConnected (e a))
                 (H2 : IsConnected (e c) = IsConnected (e b)) =>
               eq_trans H2 H1)
            ltac:(reflexivity).
Qed.

(** ** What a message may touch *)

(** X15: [handleMsg] writes to the connection only to answer a document request:
    received operations, documents and presence messages are never sent on.
    The answer is the DocSync message with the local document and the
    requester's ID. *)
Theorem handleMsg_writes_only_the_docReq_reply (m : commons.Message) (w : World) :
  conn (exec (handle m) w) =
    match commons.MsgType m with
    | commons.DocReqMessage =>
        conn (exec (conn_WriteJSON
                      (commons.mkMessage commons.DocSyncMessage (commons.ID m)
                         "" "" commons.zeroOperation (doc w))) w)
    | _ => conn w
    end.
Proof.
  destruct (commons.MsgType m) eqn:Hm.
  6: { revert w.
       change (respects (fun w w' => conn w' = conn w) (handle m)).
       unfold handleMsg. rewrite Hm. unfold_steps.
       respect (fun w : World => eq_refl (conn w))
               (fun (a b c : World) (H1 : conn b = conn a) (H2 : conn c = conn b) =>
                  eq_trans H2 H1)
               ltac:(reflexivity). }
  all: run; rewrite Hm; cbn; try reflexivity.
  - now destruct (broken (conn w)).
  - now destruct (strconv.Atoi (commons.Text m)) as [n [er|]].
Qed.

(** X16: Only a DocSync message and an insert or delete operation can change the
    document: a document request, a site assignment, a join or users
    message, and an operation of any other type leave the document, the
    insert counter, the text shown and the cursor as they were. *)
Theorem handleMsg_document_frame (m : commons.Message) (w : World) :
  let w' := exec (handle m) w in
  let kept := doc w' = doc w /\ Counter w' = Counter w /\
              Text (e w') = Text (e w) /\ Cursor (e w') = Cursor (e w) in
  match commons.MsgType m with
  | commons.DocSyncMessage => True
  | commons.OtherMessage _ =>
      commons.OpType (commons.Op m) <> "insert" ->
      commons.OpType (commons.Op m) <> "delete" -> kept
  | _ => kept
  end.
Proof.
  cbv zeta. destruct (commons.MsgType m) eqn:Hm; auto.
  1-4: run; rewrite Hm; cbn.
  - now destruct (broken (conn w)).
  - now destruct (strconv.Atoi (commons.Text m)) as [n [er|]].
  - auto.
  - auto.
  - intros Hi Hd. run. rewrite Hm.
    apply String.eqb_neq in Hi, Hd. rewrite Hi, Hd. cbn. auto.
Qed.

(** ** Document requests *)

(** X17: A document request is answered with the whole local document: a replica
    that handles the answer holds the sender's document and shows its
    content, with its own cursor, site id and counter unchanged.  When the
    write fails the error is dropped: no status is sent and the connection
    flag is left as it was. *)
Theorem docReq_reply_round_trip (m : commons.Message) (w w2 : World) :
  commons.MsgType m = commons.DocReqMessage ->
  let w' := exec (handle m) w in
  doc w' = doc w /\ StatusChan w' = StatusChan w /\ e w' = e w /\
  (broken (conn w) = true -> sentBetween w w' = []) /\
  (broken (conn w) = false ->
   exists r : commons.Message,
     sentBetween w w' = [r] /\ commons.ID r = commons.ID m /\
     let w2' := exec (handle r) w2 in
     doc w2' = doc w /\
     Text (e w2') = crdt.Content (doc w) /\
     Cursor (e w2') = Cursor (e w2) /\
     SiteID w2' = SiteID w2 /\ Counter w2' = Counter w2).
Proof.
  intros Hm. cbv zeta. unfold sentBetween. run. rewrite Hm. cbn.
  destruct (broken (conn w)) eqn:Br; cbn.
  - repeat split; auto.
    + intros _. apply skipn_all.
    + discriminate.
  - repeat split; auto; try discriminate.
    intros _. eexists. split; [apply skipn_app_exact|].
    cbn. repeat split.
Qed.

(** ** Key events: errors and redraws *)

Lemma perform_keeps_DrawChan (opType : Z) (ev : termbox.Event) :
  respects (fun w w' => DrawChan w' = DrawChan w) (perform opType ev).
Proof.
  unfold performOperation. unfold_steps.
  respect (fun w : World => eq_refl (DrawChan w))
          (fun (a b c : World) (H1 : DrawChan b = DrawChan a)
               (H2 : DrawChan c = DrawChan b) => eq_trans H2 H1)
          ltac:(reflexivity).
Qed.

(** What [handleTermboxEvent] does after its switch: it passes an error on,
    and otherwise asks for a redraw. *)
Lemma onKey_split (ev : termbox.Event) :
  exists branch : M (option error),
    respects (fun w w' => DrawChan w' = DrawChan w) branch /\
    (termbox.EvType ev = termbox.EventOther \/ mayFail (termbox.Key_ ev) = false ->
     forall w, fst (branch w) = None) /\
    onKey ev =
      bind branch
        (fun r => match r with
                  | Some err => ret (Some err)
                  | None => bind e_SendDraw (fun _ => ret None)
                  end).
Proof.
  eexists. split; [|split]. 3: reflexivity.
  - unfold_steps.
    respect (fun w : World => eq_refl (DrawChan w))
            (fun (a b c : World) (H1 : DrawChan b = DrawChan a)
                 (H2 : DrawChan c = DrawChan b) => eq_trans H2 H1)
            ltac:(reflexivity);
      try (apply (respects_repeatM _ (fun w : World => eq_refl (DrawChan w))
                    (fun (a b c : World) (H1 : DrawChan b = DrawChan a)
                         (H2 : DrawChan c = DrawChan b) => eq_trans H2 H1)));
      try (apply perform_keeps_DrawChan);
      respect (fun w : World => eq_refl (DrawChan w))
              (fun (a b c : World) (H1 : DrawChan b = DrawChan a)
                   (H2 : DrawChan c = DrawChan b) => eq_trans H2 H1)
              ltac:(reflexivity).
  - intros H w.
    destruct (termbox.EvType ev); [|reflexivity].
    destruct H as [H|H]; [discriminate|].
    destruct (termbox.Key_ ev); try discriminate;
      unfold bind; match goal with |- context [let (_, _) := ?m w in _] =>
                     destruct (m w) end; reflexivity.
Qed.

(** X1: A key event either returns no error and asks for exactly one redraw, or
    returns an error and asks for none; an error can only come from Esc,
    Ctrl+C, Ctrl+S or Ctrl+L.  The editing keys return no error even when
    the document rejects the edit. *)
Theorem onKey_error_or_redraw (ev : termbox.Event) (w : World) :
  let r := fst (onKey ev w) in
  let w' := exec (onKey ev) w in
  (r = None /\ DrawChan w' = S (DrawChan w)) \/
  (exists er : error,
     r = Some er /\ DrawChan w' = DrawChan w /\
     termbox.EvType ev = termbox.EventKey /\
     mayFail (termbox.Key_ ev) = true).
Proof.
  cbv zeta. destruct (onKey_split ev) as [branch [Hd [Hn ->]]].
  assert (Hb : forall (B : Type) (k : option error -> M B),
             bind branch k w = k (fst (branch w)) (snd (branch w))).
  { intros B k. unfold bind. now destruct (branch w). }
  unfold exec. rewrite !Hb. specialize (Hd w).
  destruct (branch w) as [[er|] w1] eqn:E; cbn in *.
  - right. exists er. repeat split; auto.
    + destruct (termbox.EvType ev) eqn:Ht; [reflexivity|].
      specialize (Hn (or_introl eq_refl) w). rewrite E in Hn. discriminate.
    + destruct (mayFail (termbox.Key_ ev)) eqn:Hk; [reflexivity|].
      specialize (Hn (or_intror eq_refl) w). rewrite E in Hn. discriminate.
  - left. split; auto; now rewrite Hd.
Qed.

(** ** Keys that do not edit *)

(** X2: The arrow keys, their Ctrl equivalents, Home and End move the cursor and
    ask for a redraw; nothing else changes.  Home puts the cursor at 0. *)
Theorem navigation_moves_only_the_cursor (ev : termbox.Event) (w : World) :
  termbox.EvType ev = termbox.EventKey ->
  isNavigation (termbox.Key_ ev) = true ->
  exists c : Z,
    exec (onKey ev) w =
      set_DrawChan (S (DrawChan w)) (set_e (set_Cursor c (e w)) w) /\
    (termbox.Key_ ev = termbox.KeyHome -> c = 0).
Proof.
  intros Ht Hk. run. rewrite Ht.
  destruct (termbox.Key_ ev); try discriminate; cbn;
    eexists; (split; [reflexivity|]); intros; try discriminate; reflexivity.
Qed.

(** X3: An event that is not a key event, and a key the switch does not name
    that carries no character, only ask for a redraw. *)
Theorem idle_event_only_redraws (ev : termbox.Event) (w : World) :
  termbox.EvType ev = termbox.EventOther \/
  (termbox.Key_ ev = termbox.KeyOther /\ termbox.Ch ev = 0) ->
  onKey ev w = (None, set_DrawChan (S (DrawChan w)) w).
Proof.
  intros H. run.
  destruct (termbox.EvType ev).
  - destruct H as [H|[Hk Hc]]; [discriminate|]. rewrite Hk, Hc. cbn.
    now destruct w.
  - cbn. now destruct w.
Qed.

(** X4: The Delete key does what Backspace does: both delete the character
    before the cursor, whatever rune the event carries. *)
Theorem delete_key_is_backspace (r1 r2 : rune) (w : World) :
  onKey (termbox.mkEvent termbox.EventKey termbox.KeyDelete r1) w =
    onKey (termbox.mkEvent termbox.EventKey termbox.KeyBackspace r2) w /\
  onKey (termbox.mkEvent termbox.EventKey termbox.KeyBackspace2 r1) w =
    onKey (termbox.mkEvent termbox.EventKey termbox.KeyBackspace r2) w.
Proof.
  split; run; cbn; reflexivity.
Qed.

(** ** Tab *)

Lemma perform_DrawChan_commute (opType : Z) (ev : termbox.Event) (n : nat) (w : World) :
  perform opType ev (set_DrawChan n w) =
  (tt, set_DrawChan n (exec (perform opType ev) w)).
Proof.
  run. cbn.
  destruct (opType =? 0); [|destruct (opType =? 1)]; cbn.
  - destruct (crdt.Insert _ _ _ _ _) as [[d c] [text [er|]]]; cbn;
      destruct (IsConnected (e w)); cbn; try reflexivity;
      destruct (broken (conn w)); reflexivity.
  - destruct (sub64 (Cursor (e w)) 1 <? 0); cbn;
      match goal with
      | |- context [crdt.Delete ?d ?p] => destruct (crdt.Delete d p) as [d' text]
      end; cbn;
      destruct (IsConnected (e w)); cbn; try reflexivity;
      destruct (broken (conn w)); reflexivity.
  - destruct (IsConnected (e w)); cbn; try reflexivity;
      destruct (broken (conn w)); reflexivity.
Qed.

Lemma perform_insert_reads_only_Ch (ev ev' : termbox.Event) (w : World) :
  termbox.Ch ev = termbox.Ch ev' ->
  perform OperationInsert ev w = perform OperationInsert ev' w.
Proof.
  intros H. run. cbn. now rewrite H.
Qed.

(** A key that inserts the rune [r]: the insert, then one redraw. *)
Lemma onKey_insert_key (k : termbox.Key) (r0 r : rune) (w : World) :
  (k = termbox.KeySpace /\ r = 32) \/ (k = termbox.KeyEnter /\ r = 10) ->
  exec (onKey (termbox.mkEvent termbox.EventKey k r0)) w =
  set_DrawChan (S (DrawChan w)) (exec (perform OperationInsert (keyCh r)) w).
Proof.
  intros H.
  pose proof (perform_keeps_DrawChan OperationInsert (keyCh r) w) as Hd.
  cbn in Hd. unfold exec.
  assert (E : forall ev, termbox.Ch ev = r ->
              snd (bind (bind (bind (perform OperationInsert ev) (fun _ => ret None))
                      (fun x : option error =>
                         match x with
                         | Some err => ret (Some err)
                         | None => bind e_SendDraw (fun _ => ret None)
                         end)) (fun x => ret x) w) =
              set_DrawChan (S (DrawChan w))
                (snd (perform OperationInsert (keyCh r) w))).
  { intros ev Hev.
    unfold bind, ret, e_SendDraw, modify.
    rewrite (perform_insert_reads_only_Ch ev (keyCh r) w Hev).
    destruct (perform OperationInsert (keyCh r) w) as [[] w1]. cbn in *.
    now rewrite Hd. }
  destruct H as [[-> ->]|[-> ->]].
  - rewrite <- (E (termbox.mkEvent termbox.EventKey termbox.KeySpace 32) eq_refl).
    unfold handleTermboxEvent, bind, ret. cbn -[performOperation].
    now destruct (performOperation _ _ _ _) as [[] w1].
  - rewrite <- (E (termbox.mkEvent termbox.EventKey termbox.KeyEnter 10) eq_refl).
    unfold handleTermboxEvent, bind, ret. cbn -[performOperation].
    now destruct (performOperation _ _ _ _) as [[] w1].
Qed.

Lemma exec_repeatM_4 (m : M unit) (w : World) :
  exec (repeatM 4 m) w = exec m (exec m (exec m (exec m w))).
Proof.
  unfold exec. cbn [repeatM]. unfold bind, ret.
  destruct (m w) as [[] w1]. cbn [snd].
  destruct (m w1) as [[] w2]. cbn [snd].
  destruct (m w2) as [[] w3]. cbn [snd].
  now destruct (m w3) as [[] w4].
Qed.

Lemma after_switch (m : M unit) (w : World) :
  snd (bind (bind m (fun _ => ret None))
         (fun r : option error =>
            match r with
            | Some err => ret (Some err)
            | None => bind e_SendDraw (fun _ => ret None)
            end) w) =
  set_DrawChan (S (DrawChan (snd (m w)))) (snd (m w)).
Proof.
  unfold bind, ret, e_SendDraw, modify. now destruct (m w) as [[] w1].
Qed.

Lemma onKey_tab (r1 : rune) (w : World) :
  exec (onKey (termbox.mkEvent termbox.EventKey termbox.KeyTab r1)) w =
  set_DrawChan (S (DrawChan w))
    (exec (repeatM 4 (perform OperationInsert (keyCh 32))) w).
Proof.
  pose proof (respects_repeatM _
                (fun u : World => eq_refl (DrawChan u))
                (fun (a b c : World) (H1 : DrawChan b = DrawChan a)
                     (H2 : DrawChan c = DrawChan b) => eq_trans H2 H1)
                4 _ (perform_keeps_DrawChan OperationInsert (keyCh 32)) w) as Hd.
  cbn beta in Hd.
  assert (E : repeatM 4 (perform OperationInsert
                (termbox.withCh (termbox.mkEvent termbox.EventKey termbox.KeyTab r1) 32)) w
              = repeatM 4 (perform OperationInsert (keyCh 32)) w).
  { cbn [repeatM]. unfold bind.
    rewrite (perform_insert_reads_only_Ch _ (keyCh 32) w) by reflexivity.
    destruct (perform OperationInsert (keyCh 32) w) as [[] w1].
    rewrite (perform_insert_reads_only_Ch _ (keyCh 32) w1) by reflexivity.
    destruct (perform OperationInsert (keyCh 32) w1) as [[] w2].
    rewrite (perform_insert_reads_only_Ch _ (keyCh 32) w2) by reflexivity.
    destruct (perform OperationInsert (keyCh 32) w2) as [[] w3].
    rewrite (perform_insert_reads_only_Ch _ (keyCh 32) w3) by reflexivity.
    reflexivity. }
  unfold exec. unfold handleTermboxEvent. cbv beta zeta.
  cbn [termbox.EvType termbox.Key_].
  rewrite after_switch, E, Hd. reflexivity.
Qed.

Lemma four_redraws (P : World -> World) (w : World) :
  (forall n u, P (set_DrawChan n u) = set_DrawChan n (P u)) ->
  let step := fun u => set_DrawChan (S (DrawChan u)) (P u) in
  set_DrawChan 0 (set_DrawChan (S (DrawChan w)) (P (P (P (P w))))) =
  set_DrawChan 0 (step (step (step (step w)))).
Proof.
  intros HP step. unfold step. rewrite !HP. reflexivity.
Qed.

(** X5: The Tab key leaves the replica as four presses of the Space key do, but
    for the number of redraws asked for (one instead of four): the same
    document, editor, connection, status notifications and log. *)
Theorem tab_is_four_spaces (r1 r2 : rune) (w : World) :
  let tab := termbox.mkEvent termbox.EventKey termbox.KeyTab r1 in
  let space := termbox.mkEvent termbox.EventKey termbox.KeySpace r2 in
  set_DrawChan 0 (exec (onKey tab) w) =
  set_DrawChan 0
    (exec (onKey space) (exec (onKey space) (exec (onKey space) (exec (onKey space) w)))).
Proof.
  cbv zeta.
  rewrite onKey_tab, exec_repeatM_4.
  rewrite !(onKey_insert_key termbox.KeySpace r2 32) by (left; split; reflexivity).
  apply (four_redraws (exec (perform OperationInsert (keyCh 32))) w).
  intros n u. unfold exec at 1. now rewrite perform_DrawChan_commute.
Qed.

(** ** Saving and loading *)

(** X6: Ctrl+S saves the current document under the file name, or under
    "pairpad-content.txt" when none is set, and keeps that name from then
    on, also when the save fails.  It returns what the save returned, sends
    one status notification saying which, and leaves the document, the
    editor and the connection as they were. *)
Theorem save_names_the_file_and_keeps_the_document (ev : termbox.Event) (w : World) :
  termbox.EvType ev = termbox.EventKey ->
  termbox.Key_ ev = termbox.KeyCtrlS ->
  let name := saveName (fileName w) in
  let w' := exec (onKey ev) w in
  fst (onKey ev w) = Save name (doc w) /\
  fileName w' = name /\ name <> "" /\
  doc w' = doc w /\ e w' = e w /\ conn w' = conn w /\
  StatusChan w' =
    StatusChan w ++
      [match Save name (doc w) with
       | Some _ => ("Failed to save to " ++ name)%string
       | None => ("Saved document to " ++ name)%string
       end].
Proof.
  intros Ht Hk. cbv zeta. unfold saveName. run. rewrite Ht, Hk. cbn.
  destruct (String.eqb_spec (fileName w) ""); cbn;
    destruct (Save _ (doc w)); cbn; repeat split; auto; discriminate.
Qed.

(** X7: Ctrl+L with a file that loads replaces the document by the loaded one,
    puts the cursor at 0 and shows the new content.  The new document is
    written to the connection as a DocSync message without looking at
    [e.IsConnected], and a failed write is dropped; a replica that handles
    the message holds the loaded document too. *)
Theorem load_replaces_and_broadcasts_the_document
    (ev : termbox.Event) (w w2 : World) (nd : crdt.Document) :
  termbox.EvType ev = termbox.EventKey ->
  termbox.Key_ ev = termbox.KeyCtrlL ->
  fileName w <> "" ->
  Load (fileName w) = (nd, None) ->
  let w' := exec (onKey ev) w in
  let sync := commons.mkMessage commons.DocSyncMessage "" "" ""
                commons.zeroOperation nd in
  fst (onKey ev w) = None /\
  doc w' = nd /\ Cursor (e w') = 0 /\ Text (e w') = crdt.Content nd /\
  IsConnected (e w') = IsConnected (e w) /\
  StatusChan w' = StatusChan w ++ [("Loading " ++ fileName w)%string] /\
  sentBetween w w' = (if broken (conn w) then [] else [sync]) /\
  doc (exec (handle sync) w2) = nd /\
  Text (e (exec (handle sync) w2)) = crdt.Content nd.
Proof.
  intros Ht Hk Hf Hl. cbv zeta. unfold sentBetween. run. rewrite Ht, Hk. cbn.
  apply String.eqb_neq in Hf. rewrite Hf. cbn. rewrite Hl. cbn.
  destruct (broken (conn w)); cbn; repeat split; auto.
  - apply skipn_all.
  - apply skipn_app_exact.
Qed.

(** X8: Ctrl+L with no file name set does not consult the loader: it sends the
    status "No file to load!" and asks for a redraw, and nothing else
    changes. *)
Theorem load_without_file_name (ev : termbox.Event) (w : World) :
  termbox.EvType ev = termbox.EventKey ->
  termbox.Key_ ev = termbox.KeyCtrlL ->
  fileName w = "" ->
  onKey ev w =
    (None, set_DrawChan (S (DrawChan w))
             (set_StatusChan (StatusChan w ++ ["No file to load!"]) w)).
Proof.
  intros Ht Hk Hf. run. rewrite Ht, Hk. cbn. rewrite Hf. cbn. reflexivity.
Qed.

(** ** Local edits and the connection *)

(** What a local operation does with the connection, whatever the
    operation. *)
Lemma perform_connection (opType : Z) (ev : termbox.Event) (w : World) :
  let w' := exec (perform opType ev) w in
  (IsConnected (e w) = false ->
     conn w' = conn w /\ StatusChan w' = StatusChan w /\
     IsConnected (e w') = false) /\
  (IsConnected (e w) = true -> broken (conn w) = true ->
     conn w' = conn w /\
     StatusChan w' = StatusChan w ++ ["lost connection!"] /\
     IsConnected (e w') = false) /\
  (IsConnected (e w) = true -> broken (conn w) = false ->
     (exists m, conn w' = mkConn false (wire (conn w) ++ [m])) /\
     StatusChan w' = StatusChan w /\ IsConnected (e w') = true).
Proof.
  run. cbn.
  destruct (opType =? 0); [|destruct (opType =? 1)]; cbn.
  - destruct (crdt.Insert _ _ _ _ _) as [[d c] [text [er|]]]; cbn;
      destruct (IsConnected (e w)) eqn:Ic; cbn;
      destruct (broken (conn w)) eqn:Br; cbn; rewrite ?Ic, ?Br;
      repeat split; intros; try discriminate; auto;
      eexists; reflexivity.
  - destruct (sub64 (Cursor (e w)) 1 <? 0); cbn;
      match goal with
      | |- context [crdt.Delete ?d ?p] => destruct (crdt.Delete d p) as [d' text]
      end; cbn;
      destruct (IsConnected (e w)) eqn:Ic; cbn;
      destruct (broken (conn w)) eqn:Br; cbn; rewrite ?Ic, ?Br;
      repeat split; intros; try discriminate; auto;
      eexists; reflexivity.
  - destruct (IsConnected (e w)) eqn:Ic; cbn;
      destruct (broken (conn w)) eqn:Br; cbn; rewrite ?Ic, ?Br;
      repeat split; intros; try discriminate; auto;
      eexists; reflexivity.
Qed.

(** X9: When a write fails, the engine marks the connection lost and says so
    once: the first local operation sends "lost connection!", and the next
    one, whatever it is, neither writes nor sends a status. *)
Theorem lost_connection_is_reported_once
    (op1 op2 : Z) (ev1 ev2 : termbox.Event) (w : World) :
  IsConnected (e w) = true -> broken (conn w) = true ->
  let w1 := exec (perform op1 ev1) w in
  let w2 := exec (perform op2 ev2) w1 in
  StatusChan w1 = StatusChan w ++ ["lost connection!"] /\
  IsConnected (e w1) = false /\
  StatusChan w2 = StatusChan w1 /\
  IsConnected (e w2) = false /\
  conn w2 = conn w.
Proof.
  intros Hc Hb. cbv zeta.
  destruct (perform_connection op1 ev1 w) as [_ [H1 _]].
  destruct (H1 Hc Hb) as [C1 [S1 I1]].
  destruct (perform_connection op2 ev2 (exec (perform op1 ev1) w)) as [H2 _].
  destruct (H2 I1) as [C2 [S2 I2]].
  repeat split; auto. now rewrite C2.
Qed.

(** X10: On a replica marked disconnected a local insert or delete changes the
    document and the insert counter exactly as on a connected one; it writes
    nothing and sends no status. *)
Theorem offline_edit_is_local (opType : Z) (ev : termbox.Event) (w : World) :
  IsConnected (e w) = false ->
  let w' := exec (perform opType ev) w in
  let on := exec (perform opType ev) (set_e (set_IsConnected true (e w)) w) in
  doc w' = doc on /\ Counter w' = Counter on /\
  conn w' = conn w /\ StatusChan w' = StatusChan w.
Proof.
  intros Hc. cbv zeta.
  destruct (perform_connection opType ev w) as [H _].
  destruct (H Hc) as [C [S _]]. repeat split; auto; clear H C S.
  all: run; cbn;
    (destruct (opType =? 0); [|destruct (opType =? 1)]); cbn.
  all: try (destruct (crdt.Insert _ _ _ _ _) as [[d c] [text [er|]]]; cbn;
            rewrite ?Hc; cbn; destruct (broken (conn w)); reflexivity).
  all: try (destruct (sub64 (Cursor (e w)) 1 <? 0); cbn;
            match goal with
            | |- context [crdt.Delete ?d ?p] =>
                destruct (crdt.Delete d p) as [d' text]
            end; cbn; rewrite ?Hc; cbn; destruct (broken (conn w)); reflexivity).
  all: rewrite ?Hc; cbn; destruct (broken (conn w)); reflexivity.
Qed.

(** ** Remote changes and the text shown *)

(** X18: [handleMsg] keeps the text shown equal to the document's content: every
    message that can change the document (a DocSync message, an insert or a
    delete) sets the text from the document afterwards, and no other message
    touches either. *)
Theorem handleMsg_keeps_text_in_step (m : commons.Message) (w : World) :
  Text (e w) = crdt.Content (doc w) ->
  Text (e (exec (handle m) w)) = crdt.Content (doc (exec (handle m) w)).
Proof.
  intros H. run.
  destruct (commons.MsgType m); cbn; auto.
  - now destruct (broken (conn w)).
  - now destruct (strconv.Atoi (commons.Text m)) as [n [er|]].
  - destruct (String.eqb (commons.OpType (commons.Op m)) "insert"); cbn.
    + destruct (crdt.Insert _ _ _ _ _) as [[d c] [text [er|]]]; cbn;
        now destruct (sub64 (commons.Position (commons.Op m)) 1 <=? Cursor (e w)).
    + destruct (String.eqb (commons.OpType (commons.Op m)) "delete"); cbn; auto.
      destruct (crdt.Delete _ _) as [d text]; cbn.
      now destruct (sub64 (commons.Position (commons.Op m)) 1 <=? Cursor (e w)).
Qed.

(** X19: A remote insert calls [MoveCursor(len(Value), 0)], on the editor
    that already shows the new text, when its position less one is at or
    before the cursor, and leaves the cursor alone otherwise: the cursor
    ends where [MoveCursor] puts it.  The call is made whether or not
    [doc.Insert] accepted the insert: a rejected insert is only logged as an
    error, and no status is sent. *)
Theorem remote_insert_hands_value_length_to_MoveCursor
    (m : commons.Message) (w : World) :
  isOperation m = true ->
  commons.OpType (commons.Op m) = "insert" ->
  let w' := exec (handle m) w in
  let op := commons.Op m in
  let r := crdt.Insert (doc w) (SiteID w) (Counter w)
             (commons.Position op) (commons.Value op) in
  Cursor (e w') =
    (if sub64 (commons.Position op) 1 <=? Cursor (e w)
     then moveCursor (set_Text (crdt.Content (doc w')) (e w))
            (len (commons.Value op)) 0
     else Cursor (e w)) /\
  filter isError (Log w') =
    filter isError (Log w) ++
      match snd (snd r) with
      | Some _ => [(ErrorLevel, "failed to insert")]
      | None => []
      end /\
  StatusChan w' = StatusChan w.
Proof.
  unfold isOperation. intros Hm Ho. run.
  destruct (commons.MsgType m); try discriminate.
  rewrite Ho. cbn.
  destruct (crdt.Insert _ _ _ _ _) as [[d c] [text [er|]]]; cbn;
    destruct (sub64 (commons.Position (commons.Op m)) 1 <=? Cursor (e w)); cbn;
    rewrite ?filter_app; cbn; rewrite ?app_nil_r; auto.
Qed.

(** ** The value of an insert message *)

Lemma string_of_rune_length (r : rune) :
  1 <= len (string_of_rune r) <= 4 /\
  (len (string_of_rune r) = 1 <-> 0 <= r < 128).
Proof.
  unfold string_of_rune, validRune, encodeRune, len.
  destruct (Z.leb_spec 0 r); destruct (Z.leb_spec r 0x10FFFF); cbn [andb negb].
  - destruct ((0xD800 <=? r) && (r <=? 0xDFFF)) eqn:Hs; cbn [negb].
    + apply andb_prop in Hs. destruct Hs as [A B].
      apply Z.leb_le in A, B. cbn. lia.
    + destruct (Z.ltb_spec r 0x80); [cbn; lia|].
      destruct (Z.ltb_spec r 0x800); [cbn; lia|].
      destruct (Z.ltb_spec r 0x10000); cbn; lia.
  - cbn. lia.
  - cbn. lia.
  - cbn. lia.
Qed.

(** X12: Every insert message a local insert writes carries [string(ev.Ch)] as
    its Value: between 1 and 4 bytes, never empty, and a single byte exactly
    when the rune is ASCII.  The receiving replica moves its cursor by that
    many bytes. *)
Theorem insert_message_value_length (ev : termbox.Event) (w : World) :
  Forall (fun m : commons.Message =>
            commons.OpType (commons.Op m) = "insert" /\
            commons.Value (commons.Op m) = string_of_rune (termbox.Ch ev) /\
            1 <= len (commons.Value (commons.Op m)) <= 4 /\
            (len (commons.Value (commons.Op m)) = 1 <-> 0 <= termbox.Ch ev < 128))
         (sentBetween w (exec (perform OperationInsert ev) w)).
Proof.
  pose proof (perform_insert_sent moveCursor ev w) as Hs. cbv zeta in Hs.
  rewrite Hs. destruct (_ && _); [|constructor].
  constructor; [|constructor].
  cbn. split; [reflexivity|]. split; [reflexivity|].
  apply string_of_rune_length.
Qed.

(** ** The users list *)

Lemma Split_not_nil (s : string) : strings.Split s "," <> [].
Proof.
  destruct s as [|c s]; cbn; [discriminate|].
  destruct (Ascii.eqb c ","); [discriminate|].
  destruct (strings.Split s ","); discriminate.
Qed.

Lemma Split_concat (s : string) :
  String.concat "," (strings.Split s ",") = s.
Proof.
  induction s as [|c s IH]; [reflexivity|].
  cbn [strings.Split].
  pose proof (Split_not_nil s) as Hn.
  destruct (Ascii.eqb_spec c ",") as [->|Hc].
  - destruct (strings.Split s ",") as [|h t]; [congruence|].
    cbn [String.concat]. cbn [String.append]. now rewrite <- IH.
  - destruct (strings.Split s ",") as [|h t]; [congruence|].
    rewrite <- IH. destruct t; reflexivity.
Qed.

(** X20: A users message sets the users list to the comma-separated fields of its
    text: the list is never empty (an empty text gives one empty name), and
    joined with commas it gives the text back.  The rest of the editor is
    left alone. *)
Theorem users_message_sets_the_users (m : commons.Message) (w : World) :
  commons.MsgType m = commons.UsersMessage ->
  let w' := exec (handle m) w in
  Users (e w') <> [] /\
  String.concat "," (Users (e w')) = commons.Text m /\
  Text (e w') = Text (e w) /\ Cursor (e w') = Cursor (e w) /\
  IsConnected (e w') = IsConnected (e w).
Proof.
  intros Hm. run. rewrite Hm. cbn.
  repeat split; auto using Split_not_nil, Split_concat.
Qed.

(** ** Typing and deleting *)

Lemma add64_small (a b : Z) :
  - 2 ^ 63 <= a + b < 2 ^ 63 -> add64 a b = a + b.
Proof.
  intros H. unfold add64, wrap64. rewrite Z.mod_small; lia.
Qed.

Lemma removeAt_insertAt {A : Type} (v : A) (l : list A) :
  forall i : nat, (i <= List.length l)%nat -> removeAt i (insertAt i v l) = l.
Proof.
  induction l as [|a l IH]; intros [|i] Hi; cbn in Hi; try lia; try reflexivity.
  change (insertAt (S i) v (a :: l)) with (a :: insertAt i v l).
  change (removeAt (S i) (a :: insertAt i v l))
    with (a :: removeAt i (insertAt i v l)).
  rewrite IH by lia. reflexivity.
Qed.

(** X13: Typing a character with the cursor inside a well-formed document puts it
    at the cursor's index; when the editor then has the cursor one further
    right, a Backspace takes exactly that character out again and Content()
    is what it was before. *)
Theorem type_then_backspace_restores_content (ev1 ev2 : termbox.Event) (w : World) :
  crdt.WF (doc w) ->
  0 <= Cursor (e w) <= crdt.visibleLength (doc w) ->
  Cursor (e w) < 2 ^ 63 - 1 ->
  let w1 := exec (perform OperationInsert ev1) w in
  Cursor (e w1) = Cursor (e w) + 1 ->
  let w2 := exec (perform OperationDelete ev2) w1 in
  crdt.visibleValues (doc w1) =
    insertAt (Z.to_nat (Cursor (e w))) (string_of_rune (termbox.Ch ev1))
      (crdt.visibleValues (doc w)) /\
  crdt.visibleValues (doc w2) = crdt.visibleValues (doc w) /\
  crdt.Content (doc w2) = crdt.Content (doc w).
Proof.
  intros Hwf Hc Hmax w1 Hc1 w2.
  pose proof (perform_insert moveCursor ev1 w) as Hi. cbv zeta in Hi.
  destruct Hi as [Hd1 _]. fold w1 in Hd1.
  rewrite add64_small in Hd1 by lia.
  destruct (DocFacts.Insert_ok (doc w) (SiteID w) (Counter w) (Cursor (e w) + 1)
              (string_of_rune (termbox.Ch ev1)) Hwf) as [d' [E [W V]]]; [lia|].
  rewrite E in Hd1. cbn in Hd1.
  replace (Cursor (e w) + 1 - 1) with (Cursor (e w)) in V by lia.
  pose proof (perform_delete moveCursor ev2 w1) as Hx. cbv zeta in Hx.
  destruct Hx as [Hd2 _]. fold w2 in Hd2.
  rewrite Hc1, deletePosition_max in Hd2 by lia.
  rewrite Z.max_r in Hd2 by lia.
  assert (Hn : crdt.visibleLength d' = crdt.visibleLength (doc w) + 1).
  { rewrite <- !DocFacts.visibleValues_length, V, length_insertAt. lia. }
  destruct (DocFacts.Delete_ok d' (Cursor (e w) + 1)) as [d'' [E2 [_ V2]]]; [lia|].
  rewrite Hd1, E2 in Hd2. cbn in Hd2.
  replace (Cursor (e w) + 1 - 1) with (Cursor (e w)) in V2 by lia.
  assert (Hv : crdt.visibleValues (doc w2) = crdt.visibleValues (doc w)).
  { rewrite Hd2, V2, V. apply removeAt_insertAt.
    pose proof (DocFacts.visibleValues_length (doc w)). lia. }
  split; [now rewrite Hd1|]. split; [exact Hv|].
  unfold crdt.Content. now rewrite Hv.
Qed.

(** ** Status notifications from messages *)

(** X21: Of all messages only a join message sends a status notification, naming
    the user who joined; a rejected remote insert, a document or any other
    message sends none. *)
Theorem handleMsg_status_only_on_join (m : commons.Message) (w : World) :
  StatusChan (exec (handle m) w) =
    match commons.MsgType m with
    | commons.JoinMessage =>
        StatusChan w ++ [(commons.Username m ++ " has joined the session!")%string]
    | _ => StatusChan w
    end.
Proof.
  destruct (commons.MsgType m) eqn:Hm.
  6: { revert w.
       change (respects (fun w w' => StatusChan w' = StatusChan w) (handle m)).
       unfold handleMsg. rewrite Hm. unfold_steps.
       respect (fun w : World => eq_refl (StatusChan w))
               (fun (a b c : World) (H1 : StatusChan b = StatusChan a)
                    (H2 : StatusChan c = StatusChan b) => eq_trans H2 H1)
               ltac:(reflexivity). }
  all: run; rewrite Hm; cbn; try reflexivity.
  - now destruct (broken (conn w)).
  - now destruct (strconv.Atoi (commons.Text m)) as [n [er|]].
Qed.

(** ** An operation type that is neither insert nor delete *)

(** X11: [performOperation] called with a type other than [OperationInsert] and
    [OperationDelete] leaves the document, the counter, the text and the
    cursor alone, but still writes a message when connected: the zero
    [Message], with no type, position or value. *)
Theorem perform_unknown_operation (opType : Z) (ev : termbox.Event) (w : World) :
  opType <> OperationInsert -> opType <> OperationDelete ->
  let w' := exec (perform opType ev) w in
  doc w' = doc w /\ Counter w' = Counter w /\
  Text (e w') = Text (e w) /\ Cursor (e w') = Cursor (e w) /\
  sentBetween w w' =
    (if IsConnected (e w) && negb (broken (conn w))
     then [commons.zeroMessage] else []).
Proof.
  intros Hi Hd. cbv zeta. unfold sentBetween. run.
  apply Z.eqb_neq in Hi, Hd.
  change (opType =? 0) with (opType =? OperationInsert).
  change (opType =? 1) with (opType =? OperationDelete).
  rewrite Hi, Hd. cbn.
  destruct (IsConnected (e w)); cbn; [destruct (broken (conn w)); cbn|];
    repeat split; auto using skipn_all, skipn_app_exact.
Qed.

End EngineExtras.

(* ================================================================== *)
(** * Further runs of the reference replica *)

(** A document request from "peer-7" handled on a replica holding "hi". *)
Lemma docReq_reply_round_trip_witness :
  let m := docReqMessage "peer-7" in
  let w := typed 1 [104; 105] in
  commons.MsgType m = commons.DocReqMessage /\
  doc (exec (handleMsg crdt.Delete clampMove m) w) = doc w.
Proof.
  split; [reflexivity|].
  exact (proj1 (docReq_reply_round_trip clampMove (docReqMessage "peer-7")
                  (typed 1 [104; 105]) (replica 2) eq_refl)).
Defined.

(** The Home key on a replica holding "hi". *)
Lemma navigation_moves_only_the_cursor_witness :
  let ev := keyOf termbox.KeyHome in
  let w := typed 1 [104; 105] in
  termbox.EvType ev = termbox.EventKey /\
  isNavigation (termbox.Key_ ev) = true /\
  exists c : Z,
    exec (handleTermboxEvent crdt.Delete clampMove len rejectLoad okSave ev) w =
      set_DrawChan (S (DrawChan w)) (set_e (set_Cursor c (e w)) w) /\
    (termbox.Key_ ev = termbox.KeyHome -> c = 0).
Proof.
  split; [reflexivity|]. split; [reflexivity|].
  exact (navigation_moves_only_the_cursor clampMove len rejectLoad okSave
           (keyOf termbox.KeyHome) (typed 1 [104; 105]) eq_refl eq_refl).
Defined.

(** A key the switch does not name, with no character. *)
Lemma idle_event_only_redraws_witness :
  let ev := keyCh 0 in
  let w := typed 1 [104; 105] in
  (termbox.Key_ ev = termbox.KeyOther /\ termbox.Ch ev = 0) /\
  handleTermboxEvent crdt.Delete clampMove len rejectLoad okSave ev w =
    (None, set_DrawChan (S (DrawChan w)) w).
Proof.
  split; [split; reflexivity|].
  exact (idle_event_only_redraws clampMove len rejectLoad okSave (keyCh 0)
           (typed 1 [104; 105]) (or_intror (conj eq_refl eq_refl))).
Defined.

(** Ctrl+S with no file name set, once with a save that succeeds and once
    with one that fails. *)
Lemma save_names_the_file_and_keeps_the_document_witness :
  let ev := keyOf termbox.KeyCtrlS in
  let w := typed 1 [104; 105] in
  termbox.EvType ev = termbox.EventKey /\
  termbox.Key_ ev = termbox.KeyCtrlS /\
  fileName (exec (handleTermboxEvent crdt.Delete clampMove len rejectLoad okSave ev) w) =
    "pairpad-content.txt" /\
  fileName (exec (handleTermboxEvent crdt.Delete clampMove len rejectLoad failSave ev) w) =
    "pairpad-content.txt".
Proof.
  split; [reflexivity|]. split; [reflexivity|]. split.
  - exact (proj1 (proj2 (save_names_the_file_and_keeps_the_document
                           clampMove len rejectLoad okSave
                           (keyOf termbox.KeyCtrlS) (typed 1 [104; 105])
                           eq_refl eq_refl))).
  - exact (proj1 (proj2 (save_names_the_file_and_keeps_the_document
                           clampMove len rejectLoad failSave
                           (keyOf termbox.KeyCtrlS) (typed 1 [104; 105])
                           eq_refl eq_refl))).
Defined.

(** Ctrl+L on an empty replica with a file name, the file holding "ok". *)
Lemma load_replaces_and_broadcasts_the_document_witness :
  let nd := doc (typed 2 [111; 107]) in
  let ev := keyOf termbox.KeyCtrlL in
  let w := set_fileName "notes.txt" (replica 1) in
  fileName w <> "" /\
  acceptLoad nd (fileName w) = (nd, None) /\
  crdt.Content (doc (exec (handleTermboxEvent crdt.Delete clampMove len (acceptLoad nd) okSave ev) w)) =
    "ok".
Proof.
  assert (F : fileName (set_fileName "notes.txt" (replica 1)) <> "")
    by discriminate.
  pose proof (load_replaces_and_broadcasts_the_document clampMove len
                (acceptLoad (doc (typed 2 [111; 107]))) okSave
                (keyOf termbox.KeyCtrlL) (set_fileName "notes.txt" (replica 1))
                (replica 3) (doc (typed 2 [111; 107]))
                eq_refl eq_refl F eq_refl) as H.
  cbv zeta in *. split; [exact F|]. split; [reflexivity|].
  destruct H as [_ [H _]]. rewrite H. vm_compute. reflexivity.
Defined.

(** Ctrl+L on a replica with no file name. *)
Lemma load_without_file_name_witness :
  let ev := keyOf termbox.KeyCtrlL in
  let w := typed 1 [104; 105] in
  fileName w = "" /\
  handleTermboxEvent crdt.Delete clampMove len rejectLoad okSave ev w =
    (None, set_DrawChan (S (DrawChan w))
             (set_StatusChan (StatusChan w ++ ["No file to load!"]) w)).
Proof.
  split; [reflexivity|].
  exact (load_without_file_name clampMove len rejectLoad okSave
           (keyOf termbox.KeyCtrlL) (typed 1 [104; 105])
           eq_refl eq_refl eq_refl).
Defined.

(** Two key strokes on a replica whose connection has failed. *)
Lemma lost_connection_is_reported_once_witness :
  let w := severed (typed 1 [104; 105]) in
  let w1 := exec (performOperation crdt.Delete clampMove OperationInsert (keyCh 33)) w in
  let w2 := exec (performOperation crdt.Delete clampMove OperationDelete backspace) w1 in
  IsConnected (e w) = true /\ broken (conn w) = true /\
  StatusChan w2 = StatusChan w ++ ["lost connection!"].
Proof.
  split; [reflexivity|]. split; [reflexivity|].
  pose proof (lost_connection_is_reported_once clampMove
                OperationInsert OperationDelete (keyCh 33) backspace
                (severed (typed 1 [104; 105])) eq_refl eq_refl) as H.
  cbv zeta in *. destruct H as [H1 [_ [H2 _]]]. now rewrite H2, H1.
Defined.

(** A key stroke on a replica marked disconnected. *)
Lemma offline_edit_is_local_witness :
  let w := offline (typed 1 [104; 105]) in
  let w' := exec (performOperation crdt.Delete clampMove OperationInsert (keyCh 33)) w in
  IsConnected (e w) = false /\ conn w' = conn w.
Proof.
  split; [reflexivity|].
  exact (proj1 (proj2 (proj2 (offline_edit_is_local clampMove OperationInsert
                                (keyCh 33) (offline (typed 1 [104; 105]))
                                eq_refl)))).
Defined.

(** The record "insert x at 1" handled on a replica holding and showing
    "hi". *)
Lemma handleMsg_keeps_text_in_step_witness :
  let m := operationMessage "insert" 1 "x" in
  let w := typed 1 [104; 105] in
  Text (e w) = crdt.Content (doc w) /\
  Text (e (exec (handleMsg crdt.Delete clampMove m) w)) =
    crdt.Content (doc (exec (handleMsg crdt.Delete clampMove m) w)).
Proof.
  assert (H : Text (e (typed 1 [104; 105])) = crdt.Content (doc (typed 1 [104; 105])))
    by (vm_compute; reflexivity).
  split; [exact H|].
  exact (handleMsg_keeps_text_in_step clampMove
           (operationMessage "insert" 1 "x") (typed 1 [104; 105]) H).
Defined.

(** Site 1 holds "hi" with the cursor at 2 and receives "insert xyz at 0",
    which [doc.Insert] rejects.  The error is logged, and [MoveCursor(3, 0)]
    is called all the same: an editor that adds the increment has the
    cursor at 5, one that keeps the cursor within the text leaves it at 2. *)
Lemma remote_insert_hands_value_length_to_MoveCursor_witness :
  let m := operationMessage "insert" 0 "xyz" in
  let w := typed 1 [104; 105] in
  isOperation m = true /\ commons.OpType (commons.Op m) = "insert" /\
  Cursor (e w) = 2 /\
  Text (e (exec (handleMsg crdt.Delete plainMove m) w)) = "hi" /\
  Cursor (e (exec (handleMsg crdt.Delete plainMove m) w)) = 5 /\
  Cursor (e (exec (handleMsg crdt.Delete clampMove m) w)) = 2 /\
  filter isError (Log (exec (handleMsg crdt.Delete plainMove m) w)) =
    [(ErrorLevel, "failed to insert")] /\
  StatusChan (exec (handleMsg crdt.Delete plainMove m) w) = StatusChan w.
Proof.
  pose proof (remote_insert_hands_value_length_to_MoveCursor plainMove
                (operationMessage "insert" 0 "xyz") (typed 1 [104; 105])
                eq_refl eq_refl) as T.
  pose proof (remote_insert_hands_value_length_to_MoveCursor clampMove
                (operationMessage "insert" 0 "xyz") (typed 1 [104; 105])
                eq_refl eq_refl) as T'.
  cbv zeta in T, T'.
  split; [reflexivity|]. split; [reflexivity|].
  split; [vm_compute; reflexivity|].
  split; [vm_compute; reflexivity|].
  split; [rewrite (proj1 T); vm_compute; reflexivity|].
  split; [rewrite (proj1 T'); vm_compute; reflexivity|].
  split; [rewrite (proj1 (proj2 T)); vm_compute; reflexivity|].
  exact (proj2 (proj2 T)).
Defined.

(** A users message naming two users. *)
Lemma users_message_sets_the_users_witness :
  let m := usersMessage "ann,bob" in
  let w := typed 1 [104; 105] in
  commons.MsgType m = commons.UsersMessage /\
  String.concat "," (Users (e (exec (handleMsg crdt.Delete clampMove m) w))) = "ann,bob".
Proof.
  split; [reflexivity|].
  exact (proj1 (proj2 (users_message_sets_the_users clampMove
                         (usersMessage "ann,bob") (typed 1 [104; 105]) eq_refl))).
Defined.

(** An operation type of 7. *)
Lemma perform_unknown_operation_witness :
  let w := typed 1 [104; 105] in
  7 <> OperationInsert /\ 7 <> OperationDelete /\
  doc (exec (performOperation crdt.Delete clampMove 7 backspace) w) = doc w.
Proof.
  assert (A : 7 <> OperationInsert) by discriminate.
  assert (B : 7 <> OperationDelete) by discriminate.
  split; [exact A|]. split; [exact B|].
  exact (proj1 (perform_unknown_operation clampMove 7 backspace
                  (typed 1 [104; 105]) A B)).
Defined.

(** "!" typed at the end of "hi", then a Backspace. *)
Lemma type_then_backspace_restores_content_witness :
  let w := typed 1 [104; 105] in
  let w1 := exec (performOperation crdt.Delete clampMove OperationInsert (keyCh 33)) w in
  let w2 := exec (performOperation crdt.Delete clampMove OperationDelete backspace) w1 in
  crdt.WF (doc w) /\
  0 <= Cursor (e w) <= crdt.visibleLength (doc w) /\
  Cursor (e w) < 2 ^ 63 - 1 /\
  Cursor (e w1) = Cursor (e w) + 1 /\
  crdt.Content (doc w1) = "hi!" /\
  crdt.Content (doc w2) = crdt.Content (doc w).
Proof.
  cbv zeta.
  assert (W : crdt.WF (doc (typed 1 [104; 105])))
    by (vm_compute; split; repeat constructor; discriminate).
  assert (B : 0 <= Cursor (e (typed 1 [104; 105])) <=
              crdt.visibleLength (doc (typed 1 [104; 105])))
    by (vm_compute; split; discriminate).
  assert (L : Cursor (e (typed 1 [104; 105])) < 2 ^ 63 - 1)
    by (vm_compute; reflexivity).
  assert (C : Cursor (e (exec (performOperation crdt.Delete clampMove OperationInsert (keyCh 33))
                           (typed 1 [104; 105]))) =
              Cursor (e (typed 1 [104; 105])) + 1)
    by (vm_compute; reflexivity).
  split; [exact W|]. split; [exact B|]. split; [exact L|]. split; [exact C|].
  split; [vm_compute; reflexivity|].
  exact (proj2 (proj2 (type_then_backspace_restores_content clampMove
                         (keyCh 33) backspace (typed 1 [104; 105]) W B L C))).
Defined.
